(** * Criador de Pôsteres: tiling and page-layout arithmetic

    A shallow embedding of the three revisions of the [PosterCreator]
    component: the grid inputs, [generatePreview] (the tile partitioner) and
    [generatePDF] (the page layout and document assembly).

    JavaScript numbers are modelled by exact rationals ([Q], compared with
    [==]) and integer-valued numbers (grid entries, pixel sizes, loop
    counters) by [Z].  The embedding therefore describes the arithmetic the
    source writes down, without the rounding of IEEE doubles.  A division
    whose divisor is zero is outside the model: the grid inputs never store
    zero, and a statement whose conclusion depends on the value of a
    quotient carries the hypotheses that keep its divisor away from zero. *)

From Stdlib Require Import ZArith QArith Qround List String Ascii Bool.
From Stdlib Require Import Lia Lqa DecimalString.
From Stdlib Require DecimalPos.
Import ListNotations.

Local Open Scope Z_scope.

(** ** Data model *)

(** [interface GridConfig { horizontal: number; vertical: number }] *)
Record GridConfig := mkGrid { horizontal : Z; vertical : Z }.

(** [interface ImageData]: the [file] handle is opaque and left out; the
    fields [width] and [height] are [img.naturalWidth], [img.naturalHeight]. *)
Record ImageData := mkImage { url : string; img_width : Z; img_height : Z }.

Inductive PaperFormat := a4 | letter | a3 | tabloid.
Inductive Orientation := portrait | landscape.

(** An entry of the [PAPER_FORMATS] table (fields [width], [height], [name]). *)
Record PaperConfig := mkPaper { pf_width : Q; pf_height : Q; pf_name : string }.

Definition PAPER_FORMATS (f : PaperFormat) : PaperConfig :=
  match f with
  | a4 => mkPaper 210 297 "A4"
  | letter => mkPaper 216 279 "Carta (Letter)"
  | a3 => mkPaper 297 420 "A3"
  | tabloid => mkPaper 279 432 "Tabloid"
  end.

(** The key of a format and the value of an orientation, as they are
    interpolated into the file name. *)
Definition format_key (f : PaperFormat) : string :=
  match f with
  | a4 => "a4" | letter => "letter" | a3 => "a3" | tabloid => "tabloid"
  end.

Definition orientation_key (o : Orientation) : string :=
  match o with portrait => "portrait" | landscape => "landscape" end.

(** ** The canvas used for cropping *)

(** The arguments of one [ctx.drawImage(img, sx, sy, sWidth, sHeight, dx, dy,
    dWidth, dHeight)] call. *)
Record DrawImage := mkDraw {
  sx : Q; sy : Q; sWidth : Q; sHeight : Q;
  dx : Q; dy : Q; dWidth : Q; dHeight : Q
}.

(** The hidden canvas: its bitmap size, whether a 2d context can be obtained,
    and what the bitmap currently shows (nothing, or the last image drawn
    over a cleared surface). *)
Record Canvas := mkCanvas {
  cv_width : Z;
  cv_height : Z;
  context2d : bool;
  bitmap : option DrawImage
}.

(** What [canvas.toDataURL('image/png')] captures: the bitmap size and its
    content at the time of the call. *)
Record Piece := mkPiece {
  px_width : Z;
  px_height : Z;
  content : option DrawImage
}.

(** Assigning a number to [canvas.width] or [canvas.height]: the number is
    converted to an [unsigned long] (truncation towards zero, then modulo
    2^32) and a value above 2^31 - 1 is replaced by the attribute's default
    (300 for the width, 150 for the height).  Resizing clears the bitmap. *)
Definition Qtrunc (q : Q) : Z := Z.quot (Qnum q) (Zpos (Qden q)).

Definition toCanvasSize (default : Z) (q : Q) : Z :=
  let n := Qtrunc q mod 2 ^ 32 in
  if n <=? 2147483647 then n else default.

Definition set_width (q : Q) (c : Canvas) : Canvas :=
  mkCanvas (toCanvasSize 300 q) (cv_height c) (context2d c) None.

Definition set_height (q : Q) (c : Canvas) : Canvas :=
  mkCanvas (cv_width c) (toCanvasSize 150 q) (context2d c) None.

(** [ctx.clearRect(0, 0, pieceWidth, pieceHeight)]: inside the loops the
    piece size is never below the bitmap size, so the whole surface is
    cleared. *)
Definition clearRect (c : Canvas) : Canvas :=
  mkCanvas (cv_width c) (cv_height c) (context2d c) None.

Definition drawImage (d : DrawImage) (c : Canvas) : Canvas :=
  mkCanvas (cv_width c) (cv_height c) (context2d c) (Some d).

Definition toDataURL (c : Canvas) : Piece :=
  mkPiece (cv_width c) (cv_height c) (bitmap c).

(** ** Component state and notifications *)

Inductive Toast :=
| toast_success (msg : string)
| toast_error (msg : string).

Definition is_error (t : Toast) : bool :=
  match t with toast_error _ => true | toast_success _ => false end.

(** The [useState] cells and the canvas reference of [PosterCreator].  The
    first revision has no [paperFormat], [orientation] or [showGuideLines]
    cell and the second no [showGuideLines]; their functions ignore them. *)
Record State := mkState {
  imageData : option ImageData;
  gridConfig : GridConfig;
  previewData : list Piece;
  paperFormat : PaperFormat;
  orientation : Orientation;
  showGuideLines : bool;
  canvasRef : option Canvas
}.

(** The initial values given to [useState]. *)
Definition initialState (cv : option Canvas) : State :=
  mkState None (mkGrid 2 2) [] a4 portrait true cv.

Definition setGridConfig (f : GridConfig -> GridConfig) (st : State) : State :=
  mkState (imageData st) (f (gridConfig st)) (previewData st)
          (paperFormat st) (orientation st) (showGuideLines st) (canvasRef st).

Definition setPreviewData (pieces : list Piece) (cv : Canvas) (st : State) : State :=
  mkState (imageData st) (gridConfig st) pieces
          (paperFormat st) (orientation st) (showGuideLines st) (Some cv).

(** ** The grid inputs: [parseInt(e.target.value) || 1] *)

(** White space skipped by [parseInt] (the ASCII part of it). *)
Definition isWhiteSpace (c : ascii) : bool :=
  let n := nat_of_ascii c in
  ((9 <=? n) && (n <=? 13))%nat || (n =? 32)%nat.

(** The value of a character as a digit, if it is one below the radix. *)
Definition digitValue (radix : Z) (c : ascii) : option Z :=
  let n := Z.of_nat (nat_of_ascii c) in
  let v :=
    if (48 <=? n) && (n <=? 57) then Some (n - 48)
    else if (97 <=? n) && (n <=? 122) then Some (n - 87)
    else if (65 <=? n) && (n <=? 90) then Some (n - 55)
    else None in
  match v with
  | Some d => if d <? radix then Some d else None
  | None => None
  end.

Fixpoint skipWhiteSpace (s : string) : string :=
  match s with
  | String c rest => if isWhiteSpace c then skipWhiteSpace rest else s
  | EmptyString => s
  end.

(** The longest prefix of digits, read most significant first; [None] when
    the prefix is empty. *)
Fixpoint readDigits (radix : Z) (acc : option Z) (s : string) : option Z :=
  match s with
  | String c rest =>
      match digitValue radix c with
      | Some d =>
          readDigits radix
            (Some (match acc with Some a => a * radix + d | None => d end)) rest
      | None => acc
      end
  | EmptyString => acc
  end.

(** [parseInt(string)] without a radix: [None] stands for [NaN].  A result
    of [-0] is represented by [Some 0]; both are falsy. *)
Definition parseInt (s : string) : option Z :=
  let s := skipWhiteSpace s in
  let '(sign, s) :=
    match s with
    | String "-"%char rest => (-1, rest)
    | String "+"%char rest => (1, rest)
    | _ => (1, s)
    end in
  let '(radix, s) :=
    match s with
    | String "0"%char (String "x"%char rest) => (16, rest)
    | String "0"%char (String "X"%char rest) => (16, rest)
    | _ => (10, s)
    end in
  match readDigits radix None s with
  | Some n => Some (sign * n)
  | None => None
  end.

(** [n || 1] on the result of [parseInt]: [NaN] and zero are falsy. *)
Definition orOne (p : option Z) : Z :=
  match p with
  | Some n => if n =? 0 then 1 else n
  | None => 1
  end.

(** The two [onChange] handlers of the grid inputs. *)
Definition onChangeHorizontal (value : string) (st : State) : State :=
  setGridConfig
    (fun prev => mkGrid (orOne (parseInt value)) (vertical prev)) st.

Definition onChangeVertical (value : string) (st : State) : State :=
  setGridConfig
    (fun prev => mkGrid (horizontal prev) (orOne (parseInt value))) st.

(** ** [generatePreview]: the tile partitioner *)

(** [for (let i = 0; i < n; i++) body]: the counter runs through
    [0, 1, ..., n-1], and not at all when [n <= 0]. *)
Definition for_loop {T : Type} (n : Z) (body : Z -> T -> T) (s : T) : T :=
  fold_left (fun acc k => body (Z.of_nat k) acc) (seq 0 (Z.to_nat n)) s.

Local Open Scope Q_scope.

(** The [drawImage] call of the loop body. *)
Definition cropCall (pieceWidth pieceHeight : Q) (col row : Z) : DrawImage :=
  mkDraw (inject_Z col * pieceWidth) (inject_Z row * pieceHeight)
         pieceWidth pieceHeight
         0 0 pieceWidth pieceHeight.

(** The body of the inner loop: clear, draw the crop, push the data URL. *)
Definition cropStep (pieceWidth pieceHeight : Q) (row col : Z)
    (acc : Canvas * list Piece) : Canvas * list Piece :=
  let '(canvas, pieces) := acc in
  let canvas := clearRect canvas in
  let canvas := drawImage (cropCall pieceWidth pieceHeight col row) canvas in
  (canvas, pieces ++ [toDataURL canvas]).

(** The two nested loops, row outside and column inside. *)
Definition cropLoops (totalCols totalRows : Z) (pieceWidth pieceHeight : Q)
    (canvas : Canvas) : Canvas * list Piece :=
  for_loop totalRows
    (fun row acc =>
       for_loop totalCols (fun col acc => cropStep pieceWidth pieceHeight row col acc) acc)
    (canvas, []).

(** [generatePreview], identical in the three revisions.  The awaited image
    load is of the object URL that was already decoded on upload.  The
    result is the next state and the notifications raised. *)
Definition generatePreview (st : State) : State * list Toast :=
  match imageData st, canvasRef st with
  | Some img, Some canvas =>
      if negb (context2d canvas) then (st, [])
      else
        let totalCols := horizontal (gridConfig st) in
        let totalRows := vertical (gridConfig st) in
        let pieceWidth := inject_Z (img_width img) / inject_Z totalCols in
        let pieceHeight := inject_Z (img_height img) / inject_Z totalRows in
        let canvas := set_width pieceWidth canvas in
        let canvas := set_height pieceHeight canvas in
        let '(canvas, pieces) :=
          cropLoops totalCols totalRows pieceWidth pieceHeight canvas in
        (setPreviewData pieces canvas st,
         [toast_success "Pré-visualização gerada!"])
  | _, _ => (st, [])
  end.

(** The source rectangle of a tile. *)
Definition inRect (d : DrawImage) (x y : Q) : Prop :=
  sx d <= x /\ x < sx d + sWidth d /\ sy d <= y /\ y < sy d + sHeight d.

Local Close Scope Q_scope.

(** ** The jsPDF document *)

(** The calls made on the document, in the unit of the document (mm). *)
Inductive PdfOp :=
| setFontSize (size : Q)
| setTextColor (gray : Z)
| setDrawColor (r g b : Z)
| setLineWidth (w : Q)
| text (s : string) (x y : Q) (centered : bool)
| addImage (imgData : Piece) (x y w h : Q)
| rect (x y w h : Q)
| line (x1 y1 x2 y2 : Q).

(** A document: the page size reported by [pdf.internal.pageSize], the pages
    already closed and the calls made on the current page.  A new document
    has one empty page. *)
Record jsPDF := mkPdf {
  pageWidth : Q;
  pageHeight : Q;
  closedPages : list (list PdfOp);
  currentPage : list PdfOp
}.

Definition pages (pdf : jsPDF) : list (list PdfOp) :=
  closedPages pdf ++ [currentPage pdf].

Definition addPage (pdf : jsPDF) : jsPDF :=
  mkPdf (pageWidth pdf) (pageHeight pdf) (pages pdf) [].

Definition draw (ops : list PdfOp) (pdf : jsPDF) : jsPDF :=
  mkPdf (pageWidth pdf) (pageHeight pdf) (closedPages pdf) (currentPage pdf ++ ops).

Local Open Scope Q_scope.

(** [new jsPDF({ orientation, unit: 'mm', format: [w, h] })]: the library
    exchanges the two sides when they disagree with the orientation. *)
Definition new_jsPDF (o : Orientation) (w h : Q) : jsPDF :=
  match o with
  | portrait => if Qle_bool w h then mkPdf w h [] [] else mkPdf h w [] []
  | landscape => if Qle_bool h w then mkPdf w h [] [] else mkPdf h w [] []
  end.

(** [new jsPDF()]: portrait A4, which the library stores as 595.28 x 841.89
    points and reports in mm through the factor 72 / 25.4. *)
Definition new_jsPDF_default : jsPDF :=
  mkPdf ((59528 # 100) / (72 / (254 # 10))) ((84189 # 100) / (72 / (254 # 10))) [] [].

(** [a > b] on numbers. *)
Definition Qgtb (a b : Q) : bool := negb (Qle_bool a b).

(** A number in a template literal; grid entries, indices and counts are
    integers and print in decimal. *)
Definition numberToString (n : Z) : string := NilZero.string_of_int (Z.to_int n).

(** The position and size handed to [pdf.addImage]: the source's [x], [y],
    [imgWidth] and [imgHeight]. *)
Record Placement := mkPlacement {
  img_x : Q; img_y : Q; imgWidth : Q; imgHeight : Q
}.

(** [imageData!.width / gridConfig.horizontal /
     (imageData!.height / gridConfig.vertical)] *)
Definition aspectRatioOf (img : ImageData) (g : GridConfig) : Q :=
  inject_Z (img_width img) / inject_Z (horizontal g)
  / (inject_Z (img_height img) / inject_Z (vertical g)).

(** [const col = i % totalCols; const row = Math.floor(i / totalCols)] for a
    page index [i >= 0]: the remainder takes the sign of [i]. *)
Definition gridPosition (i totalCols : Z) : Z * Z :=
  (Z.rem i totalCols, Qfloor (inject_Z i / inject_Z totalCols)).

(** What [generatePDF] does: it refuses an empty preview with an error
    notification, fails on [imageData!] when there is no image, fails in
    [pdf.addImage] on a tile that holds no image, or saves the document under
    a file name and notifies success.  The two failures are exceptions that
    leave the function: nothing is saved and nothing is notified. *)
Inductive PdfResult :=
| NoPreview (t : Toast)
| TypeError
| ImageError
| Saved (doc : jsPDF) (filename : string) (t : Toast).

(** A tile that holds an image: its canvas had at least one pixel each way.
    A canvas 0 pixels wide or high gives the data URL [data:,], on which
    [pdf.addImage] throws. *)
Definition hasPixels (p : Piece) : bool :=
  (0 <? px_width p) && (0 <? px_height p).

(** [previewData[i]]; the index is always within the list. *)
Definition pieceAt (previewData : list Piece) (i : Z) : Piece :=
  nth (Z.to_nat i) previewData (mkPiece 0 0 None).

(** *** First revision: default A4 page, one frame around the image *)
Module Basic.

Definition margin : Q := 10.
Definition maxWidth (pageWidth : Q) : Q := pageWidth - 2 * margin.
Definition maxHeight (pageHeight : Q) : Q := pageHeight - 2 * margin.

Definition layout (pageWidth pageHeight aspectRatio : Q) : Placement :=
  let maxWidth := maxWidth pageWidth in
  let maxHeight := maxHeight pageHeight in
  let '(imgWidth, imgHeight) :=
    if Qgtb aspectRatio (maxWidth / maxHeight) then
      (maxWidth, maxWidth / aspectRatio)
    else
      let imgHeight := maxHeight - 20 in
      (imgHeight * aspectRatio, imgHeight) in
  let x := (pageWidth - imgWidth) / 2 in
  let y := margin + 20 in
  mkPlacement x y imgWidth imgHeight.

Definition pageBody (st : State) (img : ImageData) (i : Z) (pdf : jsPDF) : jsPDF :=
  let pdf := if (0 <? i)%Z then addPage pdf else pdf in
  let total := Z.of_nat (List.length (previewData st)) in
  let pdf := draw [setFontSize 12;
                   text ("Página " ++ numberToString (i + 1) ++ " de "
                         ++ numberToString total)%string margin margin false] pdf in
  let imgData := pieceAt (previewData st) i in
  let aspectRatio := aspectRatioOf img (gridConfig st) in
  let p := layout (pageWidth pdf) (pageHeight pdf) aspectRatio in
  draw [addImage imgData (img_x p) (img_y p) (imgWidth p) (imgHeight p);
        setDrawColor 200 200 200;
        setLineWidth (1 # 10);
        rect (img_x p - 2) (img_y p - 2) (imgWidth p + 4) (imgHeight p + 4)] pdf.

Definition filename (st : State) : string :=
  ("poster-" ++ numberToString (horizontal (gridConfig st)) ++ "x"
   ++ numberToString (vertical (gridConfig st)) ++ ".pdf")%string.

(** [generatePDF].  The loop stops with the exception of [pdf.addImage] at
    the first tile that holds no image, and the document built so far is
    dropped with it; so the export fails when some tile has no pixels and
    runs through all the pages otherwise. *)
Definition generatePDF (st : State) : PdfResult :=
  match previewData st with
  | [] => NoPreview (toast_error "Gere a pré-visualização primeiro!")
  | _ :: _ =>
      match imageData st with
      | None => TypeError
      | Some img =>
          if forallb hasPixels (previewData st) then
            let pdf := new_jsPDF_default in
            let pdf :=
              for_loop (Z.of_nat (List.length (previewData st))) (pageBody st img) pdf in
            Saved pdf (filename st) (toast_success "PDF gerado e baixado!")
          else ImageError
      end
  end.

End Basic.

(** *** Second revision: paper format and orientation, header, footer and
    optional guide marks *)
Module Guides.

Definition margin : Q := 15.
Definition maxWidth (pageWidth : Q) : Q := pageWidth - 2 * margin.
Definition maxHeight (pageHeight : Q) : Q := pageHeight - 2 * margin.
Definition availableHeight (pageHeight : Q) : Q := maxHeight pageHeight - 25.

Definition layout (pageWidth pageHeight aspectRatio : Q) : Placement :=
  let maxWidth := maxWidth pageWidth in
  let availableHeight := availableHeight pageHeight in
  let '(imgWidth, imgHeight) :=
    if Qgtb aspectRatio (maxWidth / availableHeight) then
      (maxWidth, maxWidth / aspectRatio)
    else
      (availableHeight * aspectRatio, availableHeight) in
  let x := (pageWidth - imgWidth) / 2 in
  let y := margin + 15 in
  mkPlacement x y imgWidth imgHeight.

Definition orientationLabel (o : Orientation) : string :=
  match o with portrait => "Retrato" | landscape => "Paisagem" end.

(** The border, the eight corner marks and the two centre lines. *)
Definition guideLines (pageWidth pageHeight : Q) (p : Placement) : list PdfOp :=
  let x := img_x p in
  let y := img_y p in
  let imgWidth := imgWidth p in
  let imgHeight := imgHeight p in
  [setDrawColor 150 150 150;
   setLineWidth (2 # 10);
   rect (x - 3) (y - 3) (imgWidth + 6) (imgHeight + 6);
   setLineWidth (3 # 10);
   line (x - 8) (y - 3) (x - 3) (y - 3);
   line (x - 3) (y - 8) (x - 3) (y - 3);
   line (x + imgWidth + 3) (y - 8) (x + imgWidth + 3) (y - 3);
   line (x + imgWidth + 3) (y - 3) (x + imgWidth + 8) (y - 3);
   line (x - 8) (y + imgHeight + 3) (x - 3) (y + imgHeight + 3);
   line (x - 3) (y + imgHeight + 3) (x - 3) (y + imgHeight + 8);
   line (x + imgWidth + 3) (y + imgHeight + 3) (x + imgWidth + 8) (y + imgHeight + 3);
   line (x + imgWidth + 3) (y + imgHeight + 8) (x + imgWidth + 3) (y + imgHeight + 3);
   setDrawColor 200 200 200;
   setLineWidth (1 # 10);
   line (pageWidth / 2) (y - 5) (pageWidth / 2) (y + imgHeight + 5);
   line (x - 5) (pageHeight / 2) (x + imgWidth + 5) (pageHeight / 2)].

Definition pageBody (st : State) (img : ImageData) (i : Z) (pdf : jsPDF) : jsPDF :=
  let paperConfig := PAPER_FORMATS (paperFormat st) in
  let pageWidth := pageWidth pdf in
  let pageHeight := pageHeight pdf in
  let totalCols := horizontal (gridConfig st) in
  let pdf := if (0 <? i)%Z then addPage pdf else pdf in
  let '(col, row) := gridPosition i totalCols in
  let total := Z.of_nat (List.length (previewData st)) in
  let pdf :=
    draw [setFontSize 10;
          setTextColor 100;
          text ("Página " ++ numberToString (i + 1) ++ " de "
                ++ numberToString total)%string margin (margin - 5) false;
          text ("Grid: " ++ numberToString (col + 1) ++ ","
                ++ numberToString (row + 1) ++ " | " ++ pf_name paperConfig
                ++ " " ++ orientationLabel (orientation st))%string
               (pageWidth - 60) (margin - 5) false] pdf in
  let imgData := pieceAt (previewData st) i in
  let aspectRatio := aspectRatioOf img (gridConfig st) in
  let p := layout pageWidth pageHeight aspectRatio in
  let pdf := draw [addImage imgData (img_x p) (img_y p) (imgWidth p) (imgHeight p)] pdf in
  let pdf :=
    if showGuideLines st then draw (guideLines pageWidth pageHeight p) pdf
    else pdf in
  draw [setFontSize 8;
        setTextColor 120;
        text ("Posição: Coluna " ++ numberToString (col + 1) ++ ", Linha "
              ++ numberToString (row + 1)
              ++ " | Cole as páginas seguindo a ordem numérica")%string
             (pageWidth / 2) (pageHeight - 5) true] pdf.

Definition filename (st : State) : string :=
  ("poster-" ++ numberToString (horizontal (gridConfig st)) ++ "x"
   ++ numberToString (vertical (gridConfig st)) ++ "-"
   ++ format_key (paperFormat st) ++ "-" ++ orientation_key (orientation st)
   ++ ".pdf")%string.

(** [generatePDF].  The loop stops with the exception of [pdf.addImage] at
    the first tile that holds no image, and the document built so far is
    dropped with it; so the export fails when some tile has no pixels and
    runs through all the pages otherwise. *)
Definition generatePDF (st : State) : PdfResult :=
  match previewData st with
  | [] => NoPreview (toast_error "Gere a pré-visualização primeiro!")
  | _ :: _ =>
      match imageData st with
      | None => TypeError
      | Some img =>
          if forallb hasPixels (previewData st) then
            let paperConfig := PAPER_FORMATS (paperFormat st) in
            let pdf :=
              new_jsPDF (orientation st) (pf_width paperConfig) (pf_height paperConfig) in
            let pdf :=
              for_loop (Z.of_nat (List.length (previewData st))) (pageBody st img) pdf in
            Saved pdf (filename st) (toast_success "PDF gerado e baixado!")
          else ImageError
      end
  end.

End Guides.

(** *** Third revision: minimal margin, image centred on the page *)
Module Centered.

Definition margin : Q := 5.
Definition maxWidth (pageWidth : Q) : Q := pageWidth - 2 * margin.
Definition maxHeight (pageHeight : Q) : Q := pageHeight - 2 * margin.

Definition layout (pageWidth pageHeight aspectRatio : Q) : Placement :=
  let maxWidth := maxWidth pageWidth in
  let maxHeight := maxHeight pageHeight in
  let '(imgWidth, imgHeight) :=
    if Qgtb aspectRatio (maxWidth / maxHeight) then
      (maxWidth, maxWidth / aspectRatio)
    else
      (maxHeight * aspectRatio, maxHeight) in
  let x := (pageWidth - imgWidth) / 2 in
  let y := (pageHeight - imgHeight) / 2 in
  mkPlacement x y imgWidth imgHeight.

Definition pageBody (st : State) (img : ImageData) (i : Z) (pdf : jsPDF) : jsPDF :=
  let pageWidth := pageWidth pdf in
  let pageHeight := pageHeight pdf in
  let totalCols := horizontal (gridConfig st) in
  let pdf := if (0 <? i)%Z then addPage pdf else pdf in
  let '(col, row) := gridPosition i totalCols in
  let total := Z.of_nat (List.length (previewData st)) in
  let imgData := pieceAt (previewData st) i in
  let aspectRatio := aspectRatioOf img (gridConfig st) in
  let p := layout pageWidth pageHeight aspectRatio in
  draw [addImage imgData (img_x p) (img_y p) (imgWidth p) (imgHeight p);
        setFontSize 8;
        setTextColor 120;
        text (numberToString (i + 1) ++ "/" ++ numberToString total)%string
             (pageWidth - 15) 10 false;
        text (numberToString (col + 1) ++ "," ++ numberToString (row + 1))%string
             (pageWidth - 15) 18 false] pdf.

Definition filename (st : State) : string :=
  ("poster-" ++ numberToString (horizontal (gridConfig st)) ++ "x"
   ++ numberToString (vertical (gridConfig st)) ++ "-"
   ++ format_key (paperFormat st) ++ "-" ++ orientation_key (orientation st)
   ++ ".pdf")%string.

(** [generatePDF].  The loop stops with the exception of [pdf.addImage] at
    the first tile that holds no image, and the document built so far is
    dropped with it; so the export fails when some tile has no pixels and
    runs through all the pages otherwise. *)
Definition generatePDF (st : State) : PdfResult :=
  match previewData st with
  | [] => NoPreview (toast_error "Gere a pré-visualização primeiro!")
  | _ :: _ =>
      match imageData st with
      | None => TypeError
      | Some img =>
          if forallb hasPixels (previewData st) then
            let paperConfig := PAPER_FORMATS (paperFormat st) in
            let pdf :=
              new_jsPDF (orientation st) (pf_width paperConfig) (pf_height paperConfig) in
            let pdf :=
              for_loop (Z.of_nat (List.length (previewData st))) (pageBody st img) pdf in
            Saved pdf (filename st) (toast_success "PDF gerado e baixado!")
          else ImageError
      end
  end.

End Centered.

Local Close Scope Q_scope.

Definition aCanvas : Canvas := mkCanvas 300 150 true None.

Definition st_1000x500_2x1 : State :=
  mkState (Some (mkImage "blob:1" 1000 500)) (mkGrid 2 1) [] a4 portrait true
          (Some aCanvas).

(** ** Derived notions used in the statements *)

(** The data URL pushed for the cell ([row], [col]) by a canvas of the size
    of [cv]. *)
Definition tileOf (cv : Canvas) (pieceWidth pieceHeight : Q) (row col : Z) : Piece :=
  mkPiece (cv_width cv) (cv_height cv) (Some (cropCall pieceWidth pieceHeight col row)).

(** Two canvases with the same bitmap size. *)
Definition sameSize (c c' : Canvas) : Prop :=
  cv_width c' = cv_width c /\ cv_height c' = cv_height c.

(** The tiles row after row, each row from the first column to the last. *)
Definition tilesOf (cv : Canvas) (pw ph : Q) (totalCols totalRows : Z) : list Piece :=
  flat_map (fun r => map (fun k => tileOf cv pw ph (Z.of_nat r) (Z.of_nat k))
                         (seq 0 (Z.to_nat totalCols)))
           (seq 0 (Z.to_nat totalRows)).

(** The canvas as [generatePreview] sizes it before the loops. *)
Definition sizedCanvas (img : ImageData) (g : GridConfig) (cv : Canvas) : Canvas :=
  set_height (inject_Z (img_height img) / inject_Z (vertical g))
    (set_width (inject_Z (img_width img) / inject_Z (horizontal g)) cv).

(** The source rectangle of the tile of flat index [i]. *)
Definition tileRect (pieces : list Piece) (i : Z) : option DrawImage :=
  match nth_error pieces (Z.to_nat i) with
  | Some p => content p
  | None => None
  end.

(** The tile of index [i] holds the point ([x], [y]) of the image. *)
Definition covers (pieces : list Piece) (i : Z) (x y : Q) : Prop :=
  exists d, tileRect pieces i = Some d /\ inRect d x y.

(** The tile of index [i] has the source rectangle ([x], [y], [w], [h]). *)
Definition hasRect (pieces : list Piece) (i : Z) (x y w h : Q) : Prop :=
  exists d, tileRect pieces i = Some d
            /\ (sx d == x /\ sy d == y /\ sWidth d == w /\ sHeight d == h)%Q.

(** The calls made on page [i], for a document of the given page size. *)
Definition Basic_pageOps (st : State) (img : ImageData) (pageWidth pageHeight : Q)
    (i : Z) : list PdfOp :=
  let p := Basic.layout pageWidth pageHeight (aspectRatioOf img (gridConfig st)) in
  [setFontSize 12;
   text ("Página " ++ numberToString (i + 1) ++ " de "
         ++ numberToString (Z.of_nat (List.length (previewData st))))%string
        Basic.margin Basic.margin false;
   addImage (pieceAt (previewData st) i) (img_x p) (img_y p) (imgWidth p) (imgHeight p);
   setDrawColor 200 200 200;
   setLineWidth (1 # 10);
   rect (img_x p - 2) (img_y p - 2) (imgWidth p + 4) (imgHeight p + 4)].

Definition Guides_pageOps (st : State) (img : ImageData) (pageWidth pageHeight : Q)
    (i : Z) : list PdfOp :=
  let p := Guides.layout pageWidth pageHeight (aspectRatioOf img (gridConfig st)) in
  let col := fst (gridPosition i (horizontal (gridConfig st))) in
  let row := snd (gridPosition i (horizontal (gridConfig st))) in
  [setFontSize 10;
   setTextColor 100;
   text ("Página " ++ numberToString (i + 1) ++ " de "
         ++ numberToString (Z.of_nat (List.length (previewData st))))%string
        Guides.margin (Guides.margin - 5) false;
   text ("Grid: " ++ numberToString (col + 1) ++ ","
         ++ numberToString (row + 1) ++ " | "
         ++ pf_name (PAPER_FORMATS (paperFormat st))
         ++ " " ++ Guides.orientationLabel (orientation st))%string
        (pageWidth - 60) (Guides.margin - 5) false]
  ++ [addImage (pieceAt (previewData st) i)
               (img_x p) (img_y p) (imgWidth p) (imgHeight p)]
  ++ (if showGuideLines st then Guides.guideLines pageWidth pageHeight p else [])
  ++ [setFontSize 8;
      setTextColor 120;
      text ("Posição: Coluna " ++ numberToString (col + 1) ++ ", Linha "
            ++ numberToString (row + 1)
            ++ " | Cole as páginas seguindo a ordem numérica")%string
           (pageWidth / 2) (pageHeight - 5) true].

Definition Centered_pageOps (st : State) (img : ImageData) (pageWidth pageHeight : Q)
    (i : Z) : list PdfOp :=
  let p := Centered.layout pageWidth pageHeight (aspectRatioOf img (gridConfig st)) in
  let col := fst (gridPosition i (horizontal (gridConfig st))) in
  let row := snd (gridPosition i (horizontal (gridConfig st))) in
  [addImage (pieceAt (previewData st) i) (img_x p) (img_y p) (imgWidth p) (imgHeight p);
   setFontSize 8;
   setTextColor 120;
   text (numberToString (i + 1) ++ "/"
         ++ numberToString (Z.of_nat (List.length (previewData st))))%string
        (pageWidth - 15) 10 false;
   text (numberToString (col + 1) ++ "," ++ numberToString (row + 1))%string
        (pageWidth - 15) 18 false].

(** The three revisions side by side. *)
Inductive Variant := basic | guides | centered.

Definition generatePDF (v : Variant) : State -> PdfResult :=
  match v with
  | basic => Basic.generatePDF
  | guides => Guides.generatePDF
  | centered => Centered.generatePDF
  end.

Definition layout (v : Variant) : Q -> Q -> Q -> Placement :=
  match v with
  | basic => Basic.layout
  | guides => Guides.layout
  | centered => Centered.layout
  end.

Definition maxWidth (v : Variant) : Q -> Q :=
  match v with
  | basic => Basic.maxWidth
  | guides => Guides.maxWidth
  | centered => Centered.maxWidth
  end.

Definition maxHeight (v : Variant) : Q -> Q :=
  match v with
  | basic => Basic.maxHeight
  | guides => Guides.maxHeight
  | centered => Centered.maxHeight
  end.

(** The height the image is fitted to in the height-constrained branch. *)
Definition drawableHeight (v : Variant) (pageHeight : Q) : Q :=
  match v with
  | basic => (Basic.maxHeight pageHeight - 20)%Q
  | guides => Guides.availableHeight pageHeight
  | centered => Centered.maxHeight pageHeight
  end.

Definition pageOps (v : Variant) : State -> ImageData -> Q -> Q -> Z -> list PdfOp :=
  match v with
  | basic => Basic_pageOps
  | guides => Guides_pageOps
  | centered => Centered_pageOps
  end.

Definition filename (v : Variant) : State -> string :=
  match v with
  | basic => Basic.filename
  | guides => Guides.filename
  | centered => Centered.filename
  end.

(** The document each revision starts from. *)
Definition newDocument (v : Variant) (st : State) : jsPDF :=
  match v with
  | basic => new_jsPDF_default
  | _ => new_jsPDF (orientation st) (pf_width (PAPER_FORMATS (paperFormat st)))
                   (pf_height (PAPER_FORMATS (paperFormat st)))
  end.

Definition pageBody (v : Variant) : State -> ImageData -> Z -> jsPDF -> jsPDF :=
  match v with
  | basic => Basic.pageBody
  | guides => Guides.pageBody
  | centered => Centered.pageBody
  end.

(** The images placed on a page, in order. *)
Definition imagesOn (ops : list PdfOp) : list Piece :=
  flat_map (fun op => match op with addImage p _ _ _ _ => [p] | _ => [] end) ops.

(** The height the aspect ratio is tested against: the first revision tests
    against [maxHeight] and fits to [maxHeight - 20]. *)
Definition testHeight (v : Variant) (pageHeight : Q) : Q :=
  match v with
  | basic => Basic.maxHeight pageHeight
  | _ => drawableHeight v pageHeight
  end.

(** One of two propositions holds and the other does not. *)
Definition exactlyOne (A B : Prop) : Prop := (A /\ ~ B) \/ (~ A /\ B).



(** The file name built from the grid shape, the paper format and the
    orientation. *)
Definition expectedName (g : GridConfig) (f : PaperFormat) (o : Orientation) : string :=
  ("poster-" ++ numberToString (horizontal g) ++ "x" ++ numberToString (vertical g)
   ++ "-" ++ format_key f ++ "-" ++ orientation_key o ++ ".pdf")%string.

(** States used as examples: a 1000x500 image previewed on a 2x1 grid, a
    1001x500 image on a 2x1 grid, and a 1000x500 image on the initial 2x2
    grid. *)
Definition st_preview_2x1 : State := fst (generatePreview st_1000x500_2x1).

Definition st_1001x500_2x1 : State :=
  mkState (Some (mkImage "blob:2" 1001 500)) (mkGrid 2 1) [] a4 portrait true
          (Some aCanvas).

Definition st_loaded : State :=
  mkState (Some (mkImage "blob:1" 1000 500)) (mkGrid 2 2) [] a4 portrait true
          (Some aCanvas).

(** A 1x4 image on a 2x1 grid: the piece is half a pixel wide. *)
Definition st_1x4_2x1 : State :=
  mkState (Some (mkImage "blob:3" 1 4)) (mkGrid 2 1) [] a4 portrait true
          (Some aCanvas).

(** A rejected preview: the state is left as it was and an error is
    notified. *)
Definition previewRejected (st : State) : Prop :=
  fst (generatePreview st) = st /\ existsb is_error (snd (generatePreview st)) = true.



(** ** File selection, drop and the other controls *)

(** A file offered to the component: its MIME type, the object URL that
    [URL.createObjectURL] makes for it, and the natural size the browser
    finds when it decodes it ([None] when it does not decode, in which case
    [onload] never fires). *)
Record File := mkFile {
  file_type : string;
  objectURL : string;
  natural : option (Z * Z)
}.

(** [['image/jpeg', 'image/png', 'image/webp']] *)
Definition acceptedTypes : list string :=
  ["image/jpeg"%string; "image/png"%string; "image/webp"%string].

(** [list.includes(s)] on strings. *)
Definition includes (l : list string) (s : string) : bool :=
  existsb (String.eqb s) l.

Definition setImageData (img : ImageData) (st : State) : State :=
  mkState (Some img) (gridConfig st) (previewData st)
          (paperFormat st) (orientation st) (showGuideLines st) (canvasRef st).

Definition setPaperFormat (f : PaperFormat) (st : State) : State :=
  mkState (imageData st) (gridConfig st) (previewData st)
          f (orientation st) (showGuideLines st) (canvasRef st).

Definition setOrientation (o : Orientation) (st : State) : State :=
  mkState (imageData st) (gridConfig st) (previewData st)
          (paperFormat st) o (showGuideLines st) (canvasRef st).

Definition setShowGuideLines (b : bool) (st : State) : State :=
  mkState (imageData st) (gridConfig st) (previewData st)
          (paperFormat st) (orientation st) b (canvasRef st).

(** What the synchronous part of [handleFileSelect] does: nothing without a
    file, an error notification for a type outside the list, or the start of
    the load of the file. *)
Inductive Selection :=
| NoFile
| Unsupported (t : Toast)
| Loading (file : File).

(** [handleFileSelect], on the list [event.target.files]. *)
Definition handleFileSelect (files : list File) : Selection :=
  match files with
  | [] => NoFile
  | file :: _ =>
      if negb (includes acceptedTypes (file_type file)) then
        Unsupported (toast_error "Formato não suportado. Use PNG, JPEG ou WebP.")
      else Loading file
  end.

(** The [img.onload] callback installed by [handleFileSelect]. *)
Definition img_onload (file : File) (st : State) : State * list Toast :=
  match natural file with
  | Some (w, h) =>
      (setImageData (mkImage (objectURL file) w h) st,
       [toast_success "Imagem carregada com sucesso!"])
  | None => (st, [])
  end.

(** [dragHandlers.onDrop], on the list [e.dataTransfer.files]. *)
Definition onDrop (files : list File) : Selection :=
  match find (fun file => includes acceptedTypes (file_type file)) files with
  | Some imageFile => handleFileSelect [imageFile]
  | None => NoFile
  end.

(** A selection carried to its end: the load, when one was started, runs to
    its [onload]. *)
Definition finish (sel : Selection) (st : State) : State * list Toast :=
  match sel with
  | NoFile => (st, [])
  | Unsupported t => (st, [t])
  | Loading file => img_onload file st
  end.

(** The number shown as "Total de Páginas":
    [gridConfig.horizontal * gridConfig.vertical]. *)
Definition totalPages (st : State) : Z :=
  horizontal (gridConfig st) * vertical (gridConfig st).

(** What the user can do to the component.  The callbacks that complete
    later ([onload], the awaited load of [generatePreview]) read nothing of
    the state that another event could change in between, so each event is
    taken with its completion. *)
Inductive Event :=
| FileChosen (files : list File)
| FilesDropped (files : list File)
| HorizontalTyped (value : string)
| VerticalTyped (value : string)
| FormatPicked (f : PaperFormat)
| OrientationPicked (o : Orientation)
| GuidesSwitched (b : bool)
| PreviewClicked.

Definition step (st : State) (e : Event) : State :=
  match e with
  | FileChosen files => fst (finish (handleFileSelect files) st)
  | FilesDropped files => fst (finish (onDrop files) st)
  | HorizontalTyped value => onChangeHorizontal value st
  | VerticalTyped value => onChangeVertical value st
  | FormatPicked f => setPaperFormat f st
  | OrientationPicked o => setOrientation o st
  | GuidesSwitched b => setShowGuideLines b st
  | PreviewClicked => fst (generatePreview st)
  end.

(** The state after a sequence of events, from the initial one. *)
Definition run (cv : option Canvas) (events : list Event) : State :=
  fold_left step events (initialState cv).

(** ** Notions used for the decimal form of numbers *)

(** The value of a run of decimal digits read after the value [acc]. *)
Fixpoint digitsValue (acc : Z) (d : Decimal.uint) : Z :=
  match d with
  | Decimal.Nil => acc
  | Decimal.D0 l => digitsValue (acc * 10 + 0) l
  | Decimal.D1 l => digitsValue (acc * 10 + 1) l
  | Decimal.D2 l => digitsValue (acc * 10 + 2) l
  | Decimal.D3 l => digitsValue (acc * 10 + 3) l
  | Decimal.D4 l => digitsValue (acc * 10 + 4) l
  | Decimal.D5 l => digitsValue (acc * 10 + 5) l
  | Decimal.D6 l => digitsValue (acc * 10 + 6) l
  | Decimal.D7 l => digitsValue (acc * 10 + 7) l
  | Decimal.D8 l => digitsValue (acc * 10 + 8) l
  | Decimal.D9 l => digitsValue (acc * 10 + 9) l
  end.

Definition isDecimalDigit (c : ascii) : bool :=
  let n := Z.of_nat (nat_of_ascii c) in (48 <=? n) && (n <=? 57).

(** A suffix at which [parseInt] stops reading a decimal number: it is empty
    or starts with a character that is no digit and no [x] or [X]. *)
Definition stopsNumber (rest : string) : bool :=
  match rest with
  | EmptyString => true
  | String c _ =>
      negb (isDecimalDigit c) && negb (Ascii.eqb c "x") && negb (Ascii.eqb c "X")
  end.

(** ** Notions used for the geometry of a page *)

(** A drawing call that stays on a page of the given size: an image or a
    rectangle with its four corners on the page, a line with its two ends on
    the page. *)
Definition onPage (pw ph : Q) (op : PdfOp) : Prop :=
  match op with
  | addImage _ x y w h | rect x y w h =>
      (0 <= x /\ 0 <= y /\ 0 <= w /\ 0 <= h /\ x + w <= pw /\ y + h <= ph)%Q
  | line x1 y1 x2 y2 =>
      (0 <= x1 /\ x1 <= pw /\ 0 <= x2 /\ x2 <= pw
       /\ 0 <= y1 /\ y1 <= ph /\ 0 <= y2 /\ y2 <= ph)%Q
  | _ => True
  end.

Definition isRect (op : PdfOp) : bool :=
  match op with rect _ _ _ _ => true | _ => false end.

Definition isLine (op : PdfOp) : bool :=
  match op with line _ _ _ _ => true | _ => false end.

Definition isGuide (op : PdfOp) : bool :=
  match op with
  | rect _ _ _ _ | line _ _ _ _ | setDrawColor _ _ _ | setLineWidth _ => true
  | _ => false
  end.

(** ** Further notions used in the statements *)

Definition gif_file : File := mkFile "image/gif" "blob:gif" (Some (10, 10)).
Definition png_file : File := mkFile "image/png" "blob:png" (Some (640, 480)).

(** What every event keeps: no grid entry is zero, and a preview is only
    there when an image is. *)
Definition stateInvariant (st : State) : Prop :=
  horizontal (gridConfig st) <> 0 /\ vertical (gridConfig st) <> 0
  /\ (previewData st <> [] -> imageData st <> None).

Definition st_used_canvas : State :=
  mkState (Some (mkImage "blob:1" 1000 500)) (mkGrid 2 2)
          [mkPiece 7 7 None] a3 landscape false
          (Some (mkCanvas 640 480 true None)).

Definition margin (v : Variant) : Q :=
  match v with
  | basic => Basic.margin
  | guides => Guides.margin
  | centered => Centered.margin
  end.

Definition st_2x2_preview : State := fst (generatePreview st_loaded).

Definition st_3x4 : State :=
  mkState (Some (mkImage "blob:1" 1200 1600)) (mkGrid 3 4) [] a4 portrait true
          (Some aCanvas).

Definition tall_file : File := mkFile "image/jpeg" "blob:tall" (Some (300, 900)).

(** The leading decimal digits of a string, and what follows them. *)
Fixpoint takeDigits (s : string) : string * string :=
  match s with
  | String c rest =>
      if isDecimalDigit c then
        let '(digits, tail) := takeDigits rest in (String c digits, tail)
      else (EmptyString, s)
  | EmptyString => (EmptyString, EmptyString)
  end.

(** The leading integer of a string, with its sign, and what follows it. *)
Definition splitNumber (s : string) : string * string :=
  match s with
  | String "-"%char rest =>
      let '(digits, tail) := takeDigits rest in (String "-" digits, tail)
  | _ => takeDigits s
  end.

Definition startsWithDigit (s : string) : bool :=
  match s with
  | String c _ => isDecimalDigit c
  | EmptyString => false
  end.

Definition st_negative_grid : State :=
  onChangeVertical "-3" (onChangeHorizontal "-2" st_loaded).

(** * Properties *)

Example preview_1000x500_2x1 :
  map content (previewData (fst (generatePreview st_1000x500_2x1))) =
  [Some (cropCall (1000 / 2) (500 / 1) 0 0); Some (cropCall (1000 / 2) (500 / 1) 1 0)].
Proof. reflexivity. Qed.

(** ** Loops *)

Section ForLoop.
Context {T : Type}.
Variable body : Z -> T -> T.

Lemma for_loop_nonpos (n : Z) (s : T) : n <= 0 -> for_loop n body s = s.
Proof.
  intros Hn. unfold for_loop.
  replace (Z.to_nat n) with 0%nat by lia. reflexivity.
Qed.

Lemma for_loop_succ (n : Z) (s : T) :
  0 <= n -> for_loop (n + 1) body s = body n (for_loop n body s).
Proof.
  intros Hn. unfold for_loop.
  replace (Z.to_nat (n + 1)) with (S (Z.to_nat n)) by lia.
  rewrite seq_S, fold_left_app. simpl.
  now rewrite Z2Nat.id by assumption.
Qed.

End ForLoop.

(** ** The partitioner in closed form *)

Lemma tileOf_sameSize c c' pw ph row col :
  sameSize c c' -> tileOf c' pw ph row col = tileOf c pw ph row col.
Proof. intros [Hw Hh]. unfold tileOf. now rewrite Hw, Hh. Qed.

(** The inner loop never resizes the canvas and pushes one tile per column. *)
Lemma columns_fold pw ph row (l : list nat) :
  forall cv ps,
    exists cv',
      fold_left (fun acc k => cropStep pw ph row (Z.of_nat k) acc) l (cv, ps)
      = (cv', ps ++ map (fun k => tileOf cv pw ph row (Z.of_nat k)) l)
      /\ sameSize cv cv'.
Proof.
  induction l as [|k l IH]; intros cv ps; simpl.
  - exists cv. rewrite app_nil_r. repeat split.
  - destruct (IH (drawImage (cropCall pw ph (Z.of_nat k) row) (clearRect cv))
                 (ps ++ [toDataURL (drawImage (cropCall pw ph (Z.of_nat k) row)
                                              (clearRect cv))]))
      as (cv' & Heq & Hw & Hh).
    exists cv'. split; [|split; assumption].
    rewrite Heq, <- app_assoc. simpl. reflexivity.
Qed.

(** The two loops together: the tiles row after row. *)
Lemma rows_fold pw ph totalCols (l : list nat) :
  forall cv ps,
    exists cv',
      fold_left
        (fun acc r =>
           for_loop totalCols
             (fun col acc => cropStep pw ph (Z.of_nat r) col acc) acc) l (cv, ps)
      = (cv', ps ++ flat_map
                (fun r => map (fun k => tileOf cv pw ph (Z.of_nat r) (Z.of_nat k))
                              (seq 0 (Z.to_nat totalCols))) l)
      /\ sameSize cv cv'.
Proof.
  induction l as [|r l IH]; intros cv ps; simpl.
  - exists cv. rewrite app_nil_r. repeat split.
  - unfold for_loop at 2.
    destruct (columns_fold pw ph (Z.of_nat r) (seq 0 (Z.to_nat totalCols)) cv ps)
      as (cv1 & Heq1 & Hs1).
    rewrite Heq1.
    destruct (IH cv1 (ps ++ map (fun k => tileOf cv pw ph (Z.of_nat r) (Z.of_nat k))
                                (seq 0 (Z.to_nat totalCols))))
      as (cv' & Heq & Hs).
    exists cv'. split.
    + rewrite Heq, <- app_assoc. f_equal. f_equal. f_equal.
      apply flat_map_ext. intros r'. apply map_ext. intros k.
      now apply tileOf_sameSize.
    + destruct Hs1, Hs. split; congruence.
Qed.

Lemma cropLoops_tiles totalCols totalRows pw ph cv :
  exists cv',
    cropLoops totalCols totalRows pw ph cv = (cv', tilesOf cv pw ph totalCols totalRows)
    /\ sameSize cv cv'.
Proof.
  unfold cropLoops, for_loop at 1.
  destruct (rows_fold pw ph totalCols (seq 0 (Z.to_nat totalRows)) cv [])
    as (cv' & Heq & Hs).
  exists cv'. split; [exact Heq | exact Hs].
Qed.

(** When the guards pass, the preview is the list of tiles and success is
    notified. *)
Lemma generatePreview_runs st img cv :
  imageData st = Some img -> canvasRef st = Some cv -> context2d cv = true ->
  previewData (fst (generatePreview st))
  = tilesOf (sizedCanvas img (gridConfig st) cv)
            (inject_Z (img_width img) / inject_Z (horizontal (gridConfig st)))
            (inject_Z (img_height img) / inject_Z (vertical (gridConfig st)))
            (horizontal (gridConfig st)) (vertical (gridConfig st))
  /\ snd (generatePreview st) = [toast_success "Pré-visualização gerada!"]
  /\ gridConfig (fst (generatePreview st)) = gridConfig st
  /\ imageData (fst (generatePreview st)) = imageData st.
Proof.
  intros Hi Hc Hctx. unfold generatePreview. rewrite Hi, Hc, Hctx. simpl negb. cbv iota.
  destruct (cropLoops_tiles (horizontal (gridConfig st)) (vertical (gridConfig st))
              (inject_Z (img_width img) / inject_Z (horizontal (gridConfig st)))
              (inject_Z (img_height img) / inject_Z (vertical (gridConfig st)))
              (sizedCanvas img (gridConfig st) cv)) as (cv' & Heq & _).
  unfold sizedCanvas in Heq. rewrite Heq. simpl. rewrite Hi. repeat split.
Qed.

(** Indexing a list built row after row. *)
Lemma nth_error_rows {A : Type} (f : nat -> nat -> A) (nc : nat) :
  forall (nr start i : nat),
    (i < nr * nc)%nat ->
    nth_error (flat_map (fun r => map (f r) (seq 0 nc)) (seq start nr)) i
    = Some (f (start + i / nc)%nat (i mod nc)%nat).
Proof.
  induction nr as [|nr IH]; intros start i Hi; [lia|].
  assert (Hnc : (0 < nc)%nat) by (destruct nc; lia).
  simpl seq. simpl flat_map.
  destruct (Nat.lt_ge_cases i nc) as [Hlt|Hge].
  - rewrite nth_error_app1 by (now rewrite length_map, length_seq).
    rewrite nth_error_map, nth_error_seq.
    destruct (Nat.ltb_spec i nc); [|lia]. simpl.
    rewrite Nat.div_small, Nat.mod_small by assumption.
    now rewrite Nat.add_0_r.
  - rewrite nth_error_app2 by (now rewrite length_map, length_seq).
    rewrite length_map, length_seq.
    rewrite IH by (simpl in Hi; lia).
    assert (Hd : (i / nc = S ((i - nc) / nc))%nat).
    { replace i with ((i - nc) + 1 * nc)%nat at 1 by lia.
      rewrite Nat.div_add by lia. lia. }
    assert (Hm : (i mod nc = (i - nc) mod nc)%nat).
    { replace i with ((i - nc) + 1 * nc)%nat at 1 by lia.
      now rewrite Nat.Div0.mod_add. }
    rewrite Hd, Hm. f_equal. f_equal. lia.
Qed.

Lemma length_rows {A : Type} (f : nat -> nat -> A) (nc : nat) :
  forall (nr start : nat),
    List.length (flat_map (fun r => map (f r) (seq 0 nc)) (seq start nr)) = (nr * nc)%nat.
Proof.
  induction nr as [|nr IH]; intros start; [reflexivity|].
  simpl seq. simpl flat_map. rewrite length_app, length_map, length_seq, IH.
  reflexivity.
Qed.

Lemma tilesOf_length cv pw ph totalCols totalRows :
  0 <= totalCols -> 0 <= totalRows ->
  Z.of_nat (List.length (tilesOf cv pw ph totalCols totalRows)) = totalCols * totalRows.
Proof.
  intros Hc Hr. unfold tilesOf.
  rewrite (length_rows (fun r k => tileOf cv pw ph (Z.of_nat r) (Z.of_nat k))).
  lia.
Qed.

(** Row-major order: the tile of flat index [i]. *)
Lemma tilesOf_nth cv pw ph totalCols totalRows i :
  0 <= i < totalCols * totalRows -> 0 < totalCols ->
  nth_error (tilesOf cv pw ph totalCols totalRows) (Z.to_nat i)
  = Some (tileOf cv pw ph (i / totalCols) (i mod totalCols)).
Proof.
  intros Hi Hc. unfold tilesOf.
  assert (Hr : 0 < totalRows) by nia.
  rewrite (nth_error_rows (fun r k => tileOf cv pw ph (Z.of_nat r) (Z.of_nat k)))
    by nia.
  simpl. f_equal. f_equal.
  - rewrite Nat2Z.inj_div, !Z2Nat.id by lia. reflexivity.
  - rewrite Nat2Z.inj_mod, !Z2Nat.id by lia. reflexivity.
Qed.

Lemma tilesOf_empty cv pw ph totalCols totalRows :
  totalCols <= 0 \/ totalRows <= 0 -> tilesOf cv pw ph totalCols totalRows = [].
Proof.
  intros H. unfold tilesOf. destruct H as [H|H].
  - replace (Z.to_nat totalCols) with 0%nat by lia. simpl.
    induction (seq 0 (Z.to_nat totalRows)); [reflexivity | assumption].
  - replace (Z.to_nat totalRows) with 0%nat by lia. reflexivity.
Qed.

(** ** One axis of the grid: [n] strips of width [L / n] *)

Section Strips.
Local Open Scope Q_scope.
Variables L n : Z.
Hypothesis Hn : (0 < n)%Z.
Hypothesis HL : (0 < L)%Z.

Let w : Q := inject_Z L / inject_Z n.

Lemma strip_n_pos : 0 < inject_Z n.
Proof. change 0 with (inject_Z 0). now rewrite <- Zlt_Qlt. Qed.

Lemma strip_total : inject_Z n * w == inject_Z L.
Proof. unfold w. field. pose proof strip_n_pos. lra. Qed.

Lemma strip_width_pos : 0 < w.
Proof.
  assert (H0 : 0 < inject_Z L).
  { change 0 with (inject_Z 0). now rewrite <- Zlt_Qlt. }
  pose proof strip_n_pos as Hp. pose proof strip_total as Ht.
  destruct (Qlt_le_dec 0 w) as [|Hle]; [assumption|]. nra.
Qed.

Lemma strip_adjacent (k : Z) : inject_Z k * w + w == inject_Z (k + 1) * w.
Proof. rewrite inject_Z_plus. change (inject_Z 1) with 1. ring. Qed.

Lemma strip_inside (k : Z) :
  (0 <= k < n)%Z -> 0 <= inject_Z k * w /\ inject_Z k * w + w <= inject_Z L.
Proof.
  intros [Hk0 Hkn].
  assert (Hq0 : 0 <= inject_Z k).
  { change 0 with (inject_Z 0). now rewrite <- Zle_Qle. }
  assert (Hq1 : inject_Z k + 1 <= inject_Z n).
  { change 1 with (inject_Z 1). rewrite <- inject_Z_plus, <- Zle_Qle. lia. }
  pose proof strip_width_pos as Hw. pose proof strip_total as Ht.
  split; nra.
Qed.

(** The strip that holds a coordinate is the floor of its quotient by the
    strip width, and no other. *)
Lemma strip_floor (x : Q) (k : Z) :
  inject_Z k * w <= x /\ x < inject_Z k * w + w <-> k = Qfloor (x / w).
Proof.
  pose proof strip_width_pos as Hw.
  assert (Hx : x == (x / w) * w) by (field; lra).
  pose proof (Qfloor_le (x / w)) as Hlo.
  pose proof (Qlt_floor (x / w)) as Hhi.
  rewrite inject_Z_plus in Hhi. change (inject_Z 1) with 1 in Hhi.
  split.
  - intros [H1 H2].
    assert (Ha : inject_Z k < inject_Z (Qfloor (x / w) + 1)).
    { rewrite inject_Z_plus. change (inject_Z 1) with 1. nra. }
    assert (Hb : inject_Z (Qfloor (x / w)) < inject_Z (k + 1)).
    { rewrite inject_Z_plus. change (inject_Z 1) with 1. nra. }
    rewrite <- Zlt_Qlt in Ha, Hb. lia.
  - intros ->. split; nra.
Qed.

Lemma strip_index (x : Q) :
  0 <= x -> x < inject_Z L -> (0 <= Qfloor (x / w) < n)%Z.
Proof.
  intros Hx0 HxL.
  pose proof strip_width_pos as Hw. pose proof strip_total as Ht.
  assert (Hx : x == (x / w) * w) by (field; lra).
  pose proof (Qfloor_le (x / w)) as Hlo.
  pose proof (Qlt_floor (x / w)) as Hhi.
  rewrite inject_Z_plus in Hhi. change (inject_Z 1) with 1 in Hhi.
  split.
  - assert (Ha : inject_Z 0 < inject_Z (Qfloor (x / w) + 1)).
    { rewrite inject_Z_plus. change (inject_Z 1) with 1. change (inject_Z 0) with 0.
      nra. }
    rewrite <- Zlt_Qlt in Ha. lia.
  - rewrite Zlt_Qlt. nra.
Qed.
End Strips.

(** ** The tiles partition the image *)

Lemma tileRect_tilesOf cv pw ph totalCols totalRows i :
  0 <= i < totalCols * totalRows -> 0 < totalCols ->
  tileRect (tilesOf cv pw ph totalCols totalRows) i
  = Some (cropCall pw ph (i mod totalCols) (i / totalCols)).
Proof.
  intros Hi Hc. unfold tileRect. now rewrite tilesOf_nth.
Qed.

Lemma in_tilesOf cv pw ph totalCols totalRows p :
  In p (tilesOf cv pw ph totalCols totalRows) ->
  exists row col, 0 <= row < totalRows /\ 0 <= col < totalCols
                  /\ p = tileOf cv pw ph row col.
Proof.
  unfold tilesOf. intros Hin.
  apply in_flat_map in Hin. destruct Hin as (r & Hr & Hin).
  apply in_map_iff in Hin. destruct Hin as (k & Hp & Hk).
  apply in_seq in Hr. apply in_seq in Hk.
  exists (Z.of_nat r), (Z.of_nat k). repeat split; try lia. now symmetry.
Qed.

(** C2. For a grid of at least one column and one row and an image at least
    as wide as the columns and as high as the rows, [generatePreview]
    produces columns*rows tiles; the tile of flat index [i] crops the
    rectangle (col*(W/columns), row*(H/rows), W/columns, H/rows) with the
    same piece size for every tile; every tile lies inside the image; every
    point of [0,W) x [0,H) lies in one tile and in no other; the right edge
    of a tile is the left edge of its right neighbour and its bottom edge the
    top edge of the tile below.  For a 1000x500 image and a 2x1 grid the
    rectangles are (0,0,500,500) and (500,0,500,500). *)
Theorem partition_tiles_image :
  (forall st img cv,
      imageData st = Some img -> canvasRef st = Some cv -> context2d cv = true ->
      1 <= horizontal (gridConfig st) -> 1 <= vertical (gridConfig st) ->
      horizontal (gridConfig st) <= img_width img ->
      vertical (gridConfig st) <= img_height img ->
      let columns := horizontal (gridConfig st) in
      let rows := vertical (gridConfig st) in
      let W := inject_Z (img_width img) in
      let H := inject_Z (img_height img) in
      let pieceWidth := (W / inject_Z columns)%Q in
      let pieceHeight := (H / inject_Z rows)%Q in
      let pieces := previewData (fst (generatePreview st)) in
      Z.of_nat (List.length pieces) = columns * rows
      /\ (forall i, 0 <= i < columns * rows ->
            tileRect pieces i
            = Some (mkDraw (inject_Z (i mod columns) * pieceWidth)
                           (inject_Z (i / columns) * pieceHeight)
                           pieceWidth pieceHeight 0 0 pieceWidth pieceHeight))
      /\ (forall p d, In p pieces -> content p = Some d ->
            sWidth d = pieceWidth /\ sHeight d = pieceHeight
            /\ (0 <= sx d /\ sx d + sWidth d <= W
                /\ 0 <= sy d /\ sy d + sHeight d <= H)%Q)
      /\ (forall x y, (0 <= x)%Q -> (x < W)%Q -> (0 <= y)%Q -> (y < H)%Q ->
            exists i, 0 <= i < columns * rows
                      /\ covers pieces i x y
                      /\ forall j, 0 <= j < columns * rows ->
                                   covers pieces j x y -> j = i)
      /\ (forall i d, 0 <= i < columns * rows -> tileRect pieces i = Some d ->
            (i mod columns + 1 < columns ->
             exists d', tileRect pieces (i + 1) = Some d'
                        /\ (sx d + sWidth d == sx d')%Q /\ sy d = sy d')
            /\ (i + columns < columns * rows ->
                exists d', tileRect pieces (i + columns) = Some d'
                           /\ (sy d + sHeight d == sy d')%Q /\ sx d = sx d')))
  /\ (let pieces := previewData (fst (generatePreview st_1000x500_2x1)) in
      List.length pieces = 2%nat
      /\ hasRect pieces 0 0 0 500 500
      /\ hasRect pieces 1 500 0 500 500).
Proof.
  split.
  - intros st img cv Hi Hc Hctx Hcols Hrows HW HH columns rows W H pw ph pieces.
    destruct (generatePreview_runs st img cv Hi Hc Hctx) as (Hp & _).
    fold columns rows W H pw ph pieces in Hp.
    set (cv0 := sizedCanvas img (gridConfig st) cv) in Hp.
    assert (Hc0 : 0 < columns) by (unfold columns; lia).
    assert (Hr0 : 0 < rows) by (unfold rows; lia).
    assert (HW0 : 0 < img_width img) by (unfold columns in Hc0; lia).
    assert (HH0 : 0 < img_height img) by (unfold rows in Hr0; lia).
    assert (Hrect : forall i, 0 <= i < columns * rows ->
              tileRect pieces i = Some (cropCall pw ph (i mod columns) (i / columns))).
    { intros i Hi'. rewrite Hp. now apply tileRect_tilesOf. }
    split; [|split; [|split; [|split]]].
    + rewrite Hp. apply tilesOf_length; lia.
    + exact Hrect.
    + intros p d Hin Hd. rewrite Hp in Hin.
      apply in_tilesOf in Hin. destruct Hin as (row & col & Hrow & Hcol & ->).
      simpl in Hd. injection Hd as <-. simpl.
      destruct (strip_inside (img_width img) columns Hc0 HW0 col Hcol).
      destruct (strip_inside (img_height img) rows Hr0 HH0 row Hrow).
      repeat split; assumption.
    + intros x y Hx0 HxW Hy0 HyH.
      pose proof (strip_index (img_width img) columns Hc0 HW0 x Hx0 HxW) as Hcol.
      pose proof (strip_index (img_height img) rows Hr0 HH0 y Hy0 HyH) as Hrow.
      fold W pw in Hcol. fold H ph in Hrow.
      set (col := Qfloor (x / pw)) in *. set (row := Qfloor (y / ph)) in *.
      assert (Hidx : 0 <= row * columns + col < columns * rows) by nia.
      assert (Hmod : (row * columns + col) mod columns = col).
      { rewrite Z.add_comm, Z.mod_add by lia. apply Z.mod_small. lia. }
      assert (Hdiv : (row * columns + col) / columns = row).
      { rewrite Z.add_comm, Z.div_add by lia. rewrite Z.div_small; lia. }
      exists (row * columns + col). split; [exact Hidx|]. split.
      * exists (cropCall pw ph col row). split.
        -- rewrite Hrect by exact Hidx. now rewrite Hmod, Hdiv.
        -- unfold inRect. simpl.
           destruct (proj2 (strip_floor (img_width img) columns Hc0 HW0 x col) eq_refl).
           destruct (proj2 (strip_floor (img_height img) rows Hr0 HH0 y row) eq_refl).
           repeat split; assumption.
      * intros j Hj (d & Hd & Hin).
        rewrite Hrect in Hd by exact Hj. injection Hd as <-.
        destruct Hin as (H1 & H2 & H3 & H4). simpl in H1, H2, H3, H4.
        pose proof (proj1 (strip_floor (img_width img) columns Hc0 HW0 x _)
                          (conj H1 H2)) as Hjc.
        pose proof (proj1 (strip_floor (img_height img) rows Hr0 HH0 y _)
                          (conj H3 H4)) as Hjr.
        fold W pw col in Hjc. fold H ph row in Hjr.
        rewrite (Z.div_mod j columns) by lia. rewrite Hjc, Hjr. ring.
    + intros i d Hi' Hd. rewrite Hrect in Hd by exact Hi'. injection Hd as <-.
      pose proof (Z.mod_pos_bound i columns Hc0) as Hm.
      pose proof (Z.div_mod i columns ltac:(lia)) as Hdm.
      assert (Hq : i / columns < rows) by (apply Z.div_lt_upper_bound; lia).
      split.
      * intros Hnext.
        assert (Hmod : (i + 1) mod columns = i mod columns + 1).
        { symmetry. apply (Z.mod_unique_pos _ _ (i / columns)); lia. }
        assert (Hdiv : (i + 1) / columns = i / columns).
        { symmetry. apply (Z.div_unique_pos _ _ _ (i mod columns + 1)); lia. }
        exists (cropCall pw ph (i mod columns + 1) (i / columns)). split.
        -- rewrite Hrect by nia. now rewrite Hmod, Hdiv.
        -- simpl. split; [|reflexivity]. apply strip_adjacent.
      * intros Hbelow.
        assert (Hmod : (i + columns) mod columns = i mod columns).
        { replace (i + columns) with (i + 1 * columns) by ring.
          now rewrite Z.mod_add by lia. }
        assert (Hdiv : (i + columns) / columns = i / columns + 1).
        { replace (i + columns) with (i + 1 * columns) by ring.
          now rewrite Z.div_add by lia. }
        exists (cropCall pw ph (i mod columns) (i / columns + 1)). split.
        -- rewrite Hrect by lia. now rewrite Hmod, Hdiv.
        -- simpl. split; [|reflexivity]. apply strip_adjacent.
  - cbv zeta. split; [reflexivity|]. split.
    + eexists. split; [reflexivity|]. simpl. repeat split; reflexivity.
    + eexists. split; [reflexivity|]. simpl. repeat split; reflexivity.
Qed.

Lemma partition_tiles_image_witness :
  Z.of_nat (List.length (previewData (fst (generatePreview st_1000x500_2x1)))) = 2
  /\ tileRect (previewData (fst (generatePreview st_1000x500_2x1))) 1
     = Some (mkDraw (1 * (1000 / 2)) (0 * (500 / 1)) (1000 / 2) (500 / 1)
                    0 0 (1000 / 2) (500 / 1)).
Proof.
  destruct (proj1 partition_tiles_image st_1000x500_2x1 (mkImage "blob:1" 1000 500)
              aCanvas eq_refl eq_refl eq_refl ltac:(simpl; lia) ltac:(simpl; lia)
              ltac:(simpl; lia) ltac:(simpl; lia)) as (Hlen & Hrect & _).
  split; [exact Hlen|].
  exact (Hrect 1 ltac:(simpl; lia)).
Defined.

(** ** Tiles with and without pixels *)

Lemma tiles_share_pixel_size_aux st img cv :
  imageData st = Some img -> canvasRef st = Some cv -> context2d cv = true ->
  forall p, In p (previewData (fst (generatePreview st))) ->
    px_width p
    = toCanvasSize 300 (inject_Z (img_width img) / inject_Z (horizontal (gridConfig st)))
    /\ px_height p
       = toCanvasSize 150 (inject_Z (img_height img) / inject_Z (vertical (gridConfig st))).
Proof.
  intros Hi Hc Hctx p Hin.
  destruct (generatePreview_runs st img cv Hi Hc Hctx) as (Hp & _).
  rewrite Hp in Hin. apply in_tilesOf in Hin.
  destruct Hin as (row & col & _ & _ & ->). split; reflexivity.
Qed.

Lemma Qtrunc_quotient (W c : Z) :
  0 <= W -> 0 < c -> Qtrunc (inject_Z W / inject_Z c) = W / c.
Proof.
  intros HW Hc. destruct c as [|p|p]; try lia.
  unfold Qtrunc. simpl. rewrite ?Z.mul_1_r, ?Pos.mul_1_l.
  apply Z.quot_div_nonneg; lia.
Qed.

Lemma toCanvasSize_quotient (default W c : Z) :
  0 <= W -> 0 < c -> W / c <= 2147483647 ->
  toCanvasSize default (inject_Z W / inject_Z c) = W / c.
Proof.
  intros HW Hc Hmax. unfold toCanvasSize. cbv zeta.
  rewrite Qtrunc_quotient by assumption.
  assert (H0 : 0 <= W / c) by (apply Z.div_pos; lia).
  rewrite Z.mod_small by lia.
  destruct (Z.leb_spec (W / c) 2147483647); [reflexivity | lia].
Qed.

(** With at least one image pixel per column and per row, and piece sizes
    within the range of a canvas size, every tile has pixels. *)
Lemma tiles_have_pixels st img cv :
  imageData st = Some img -> canvasRef st = Some cv -> context2d cv = true ->
  1 <= horizontal (gridConfig st) <= img_width img ->
  1 <= vertical (gridConfig st) <= img_height img ->
  img_width img / horizontal (gridConfig st) <= 2147483647 ->
  img_height img / vertical (gridConfig st) <= 2147483647 ->
  forallb hasPixels (previewData (fst (generatePreview st))) = true.
Proof.
  intros Hi Hc Hctx Hcols Hrows HWmax HHmax.
  apply forallb_forall. intros p Hin.
  destruct (tiles_share_pixel_size_aux st img cv Hi Hc Hctx p Hin) as [Hw Hh].
  rewrite toCanvasSize_quotient in Hw by lia.
  rewrite toCanvasSize_quotient in Hh by lia.
  unfold hasPixels. rewrite Hw, Hh.
  assert (1 <= img_width img / horizontal (gridConfig st))
    by (apply Z.div_le_lower_bound; lia).
  assert (1 <= img_height img / vertical (gridConfig st))
    by (apply Z.div_le_lower_bound; lia).
  apply andb_true_iff. split; apply Z.ltb_lt; lia.
Qed.

(** ** The document in closed form *)

Lemma draw_draw l1 l2 pdf : draw l2 (draw l1 pdf) = draw (l1 ++ l2) pdf.
Proof. unfold draw. simpl. now rewrite app_assoc. Qed.

Lemma draw_nil pdf : draw [] pdf = pdf.
Proof. unfold draw. rewrite app_nil_r. now destruct pdf. Qed.

Lemma pageBody_draw v st img i pdf :
  pageBody v st img i pdf
  = draw (pageOps v st img (pageWidth pdf) (pageHeight pdf) i)
         (if 0 <? i then addPage pdf else pdf).
Proof.
  destruct v; simpl.
  - unfold Basic.pageBody, Basic_pageOps. cbv zeta.
    rewrite draw_draw. now destruct (0 <? i).
  - unfold Guides.pageBody, Guides_pageOps. cbv zeta.
    destruct (gridPosition i (horizontal (gridConfig st))) as [col row]. simpl fst. simpl snd.
    destruct (showGuideLines st); rewrite !draw_draw; now destruct (0 <? i).
  - unfold Centered.pageBody, Centered_pageOps. cbv zeta.
    destruct (gridPosition i (horizontal (gridConfig st))) as [col row].
    now destruct (0 <? i).
Qed.

Section PdfLoop.
Variable ops : Q -> Q -> Z -> list PdfOp.
Variable body : Z -> jsPDF -> jsPDF.
Hypothesis body_draw :
  forall i pdf,
    body i pdf
    = draw (ops (pageWidth pdf) (pageHeight pdf) i) (if 0 <? i then addPage pdf else pdf).

(** After [n + 1] iterations on a new document there are [n + 1] pages, the
    page of index [k] holding the calls of iteration [k]. *)
Lemma pdf_loop_pages (pdf0 : jsPDF) :
  closedPages pdf0 = [] -> currentPage pdf0 = [] ->
  forall n : nat,
    let pdf := fold_left (fun acc k => body (Z.of_nat k) acc) (seq 0 (S n)) pdf0 in
    pages pdf = map (fun k => ops (pageWidth pdf0) (pageHeight pdf0) (Z.of_nat k))
                    (seq 0 (S n))
    /\ pageWidth pdf = pageWidth pdf0 /\ pageHeight pdf = pageHeight pdf0.
Proof.
  intros Hclosed Hcur. induction n as [|n IH]; cbv zeta.
  - simpl. rewrite body_draw. simpl. unfold pages. simpl.
    now rewrite Hclosed, Hcur.
  - rewrite seq_S, fold_left_app. cbv zeta in IH.
    destruct IH as (Hp & Hw & Hh).
    set (pdf := fold_left _ (seq 0 (S n)) pdf0) in *.
    simpl fold_left. rewrite body_draw.
    replace (0 <? Z.of_nat (0 + S n)) with true by (symmetry; apply Z.ltb_lt; lia).
    unfold pages at 1. simpl. rewrite Hp, Hw, Hh.
    rewrite map_app. simpl. repeat split; reflexivity.
Qed.
End PdfLoop.

Lemma generatePDF_pages v st img :
  imageData st = Some img -> previewData st <> [] ->
  forallb hasPixels (previewData st) = true ->
  exists doc,
    generatePDF v st = Saved doc (filename v st) (toast_success "PDF gerado e baixado!")
    /\ pageWidth doc = pageWidth (newDocument v st)
    /\ pageHeight doc = pageHeight (newDocument v st)
    /\ pages doc
       = map (fun k => pageOps v st img (pageWidth doc) (pageHeight doc) (Z.of_nat k))
             (seq 0 (List.length (previewData st))).
Proof.
  intros Hi Hne Hpx.
  assert (Hn : exists n, List.length (previewData st) = S n).
  { destruct (previewData st); [congruence | eexists; reflexivity]. }
  destruct Hn as (n & Hn).
  assert (Hnew : closedPages (newDocument v st) = [] /\ currentPage (newDocument v st) = []).
  { destruct v; simpl; [now split | |];
      unfold new_jsPDF; destruct (orientation st);
      match goal with |- context [if ?b then _ else _] => destruct b end; now split. }
  destruct Hnew as (Hcl & Hcu).
  destruct (pdf_loop_pages (pageOps v st img) (pageBody v st img)
              (pageBody_draw v st img) (newDocument v st) Hcl Hcu n) as (Hp & Hw & Hh).
  exists (for_loop (Z.of_nat (List.length (previewData st))) (pageBody v st img)
                   (newDocument v st)).
  unfold for_loop. rewrite Nat2Z.id, Hn.
  split; [|split; [exact Hw | split; [exact Hh|]]].
  - destruct v; simpl; unfold Basic.generatePDF, Guides.generatePDF, Centered.generatePDF;
      rewrite Hi, Hpx; destruct (previewData st) eqn:E; try congruence;
      unfold for_loop; rewrite Nat2Z.id; simpl List.length in *; rewrite Hn; reflexivity.
  - rewrite Hp, Hw, Hh. reflexivity.
Qed.

(** The three outcomes of an export with an image: refused without a
    preview, failed on a tile without pixels, saved otherwise. *)
Lemma generatePDF_outcome v st img :
  imageData st = Some img ->
  (previewData st = [] /\ exists t, generatePDF v st = NoPreview t)
  \/ (previewData st <> [] /\ forallb hasPixels (previewData st) = false
      /\ generatePDF v st = ImageError)
  \/ (previewData st <> [] /\ forallb hasPixels (previewData st) = true
      /\ exists doc name t, generatePDF v st = Saved doc name t).
Proof.
  intros Hi.
  destruct (previewData st) as [|p ps] eqn:E.
  - left. split; [reflexivity|].
    destruct v; simpl; unfold Basic.generatePDF, Guides.generatePDF,
      Centered.generatePDF; rewrite E; eexists; reflexivity.
  - right. destruct (forallb hasPixels (p :: ps)) eqn:Hpx.
    + right. split; [discriminate|]. split; [reflexivity|].
      assert (Hne : previewData st <> []) by (rewrite E; discriminate).
      rewrite <- E in Hpx.
      destruct (generatePDF_pages v st img Hi Hne Hpx) as (doc & Hdoc & _).
      eexists. eexists. eexists. exact Hdoc.
    + left. split; [discriminate|]. split; [reflexivity|].
      destruct v; simpl; unfold Basic.generatePDF, Guides.generatePDF,
        Centered.generatePDF; rewrite Hi, E, Hpx; reflexivity.
Qed.

(** A saved document had a preview of tiles with pixels. *)
Lemma Saved_preview v st doc name t :
  generatePDF v st = Saved doc name t ->
  previewData st <> [] /\ forallb hasPixels (previewData st) = true.
Proof.
  intros Hsaved.
  destruct v; simpl in Hsaved;
    unfold Basic.generatePDF, Guides.generatePDF, Centered.generatePDF in Hsaved;
    destruct (previewData st) as [|p ps] eqn:E; try discriminate Hsaved;
    destruct (imageData st); try discriminate Hsaved;
    destruct (forallb hasPixels (p :: ps)) eqn:Hpx; try discriminate Hsaved;
    (split; [discriminate | reflexivity]).
Qed.

(** An image narrower than the grid has columns gives tiles without pixels,
    and the export of each revision fails on them. *)
Lemma narrow_image_export_fails :
  map px_width (previewData (fst (generatePreview st_1x4_2x1))) = [0; 0]
  /\ forall v, generatePDF v (fst (generatePreview st_1x4_2x1)) = ImageError.
Proof.
  split; [reflexivity|]. intros v. destruct v; reflexivity.
Qed.

(** ** The scale-to-fit rule *)

Lemma Qgtb_true (a b : Q) : Qgtb a b = true <-> (b < a)%Q.
Proof.
  unfold Qgtb. destruct (Qle_bool a b) eqn:E; simpl.
  - apply Qle_bool_iff in E. split; [discriminate | intros; lra].
  - split; [intros _ | reflexivity].
    apply Qnot_le_lt. intros Hle. apply Qle_bool_iff in Hle. congruence.
Qed.

Lemma Qgtb_false (a b : Q) : Qgtb a b = false <-> (a <= b)%Q.
Proof.
  unfold Qgtb. destruct (Qle_bool a b) eqn:E; simpl.
  - apply Qle_bool_iff in E. split; [intros _; assumption | reflexivity].
  - split; [discriminate|]. intros Hle. apply Qle_bool_iff in Hle. congruence.
Qed.

(** The two branches, common to the three revisions. *)
Lemma layout_branches v pw ph ar :
  (imgWidth (layout v pw ph ar), imgHeight (layout v pw ph ar))
  = (if Qgtb ar (maxWidth v pw / testHeight v ph)
     then (maxWidth v pw, maxWidth v pw / ar)
     else (drawableHeight v ph * ar, drawableHeight v ph))%Q
  /\ img_x (layout v pw ph ar) = ((pw - imgWidth (layout v pw ph ar)) / 2)%Q.
Proof.
  destruct v; simpl; unfold Basic.layout, Guides.layout, Centered.layout; cbv zeta;
    match goal with |- context [Qgtb ?a ?b] => destruct (Qgtb a b) end;
    split; reflexivity.
Qed.

(** C1, as amended.  For a positive aspect ratio and a drawable area of
    positive width and height, the image width is [maxWidth] or the image
    height is the drawable height (or both, which happens exactly when the
    aspect ratio is that of the drawable area), and the image keeps the
    aspect ratio of the tile; in the three revisions. *)
Theorem scale_to_fit (v : Variant) (pageWidth pageHeight aspectRatio : Q) :
  (0 < aspectRatio)%Q ->
  (0 < maxWidth v pageWidth)%Q ->
  (0 < drawableHeight v pageHeight)%Q ->
  let p := layout v pageWidth pageHeight aspectRatio in
  (imgWidth p == maxWidth v pageWidth \/ imgHeight p == drawableHeight v pageHeight)%Q
  /\ ((imgWidth p == maxWidth v pageWidth /\ imgHeight p == drawableHeight v pageHeight)
      <-> aspectRatio * drawableHeight v pageHeight == maxWidth v pageWidth)%Q
  /\ (imgWidth p / imgHeight p == aspectRatio)%Q.
Proof.
  intros Har Hmw Hdh p.
  destruct (layout_branches v pageWidth pageHeight aspectRatio) as (Hb & _).
  fold p in Hb.
  set (mw := maxWidth v pageWidth) in *. set (dh := drawableHeight v pageHeight) in *.
  destruct (Qgtb aspectRatio (mw / testHeight v pageHeight));
    injection Hb as Hw Hh; rewrite Hw, Hh.
  - split; [left; reflexivity|]. split.
    + split.
      * intros [_ H]. rewrite <- H. field. lra.
      * intros H. split; [reflexivity|]. rewrite <- H. field. lra.
    + field. split; lra.
  - split; [right; reflexivity|]. split.
    + split.
      * intros [H _]. rewrite <- H. ring.
      * intros H. split; [|reflexivity]. rewrite <- H. ring.
    + field. lra.
Qed.

Lemma scale_to_fit_witness :
  (0 < 2)%Q /\ (0 < maxWidth guides 210)%Q /\ (0 < drawableHeight guides 297)%Q
  /\ (imgWidth (layout guides 210 297 2) / imgHeight (layout guides 210 297 2) == 2)%Q.
Proof.
  assert (Ha : (0 < 2)%Q) by reflexivity.
  assert (Hw : (0 < maxWidth guides 210)%Q) by reflexivity.
  assert (Hh : (0 < drawableHeight guides 297)%Q) by reflexivity.
  split; [exact Ha | split; [exact Hw | split; [exact Hh|]]].
  exact (proj2 (proj2 (scale_to_fit guides 210 297 2 Ha Hw Hh))).
Defined.

(** C1, as stated, fails when the tile has the aspect ratio of the drawable
    area: for a 200x287 image on a 1x1 grid, the centred A4 portrait layout
    gives both [imgWidth == maxWidth] and [imgHeight == maxHeight]. *)
Lemma scale_to_fit_tie :
  let aspectRatio := aspectRatioOf (mkImage "blob:1" 200 287) (mkGrid 1 1) in
  let p := layout centered 210 297 aspectRatio in
  (0 < aspectRatio)%Q /\ (0 < maxWidth centered 210)%Q /\ (0 < maxHeight centered 297)%Q
  /\ (imgWidth p == maxWidth centered 210)%Q
  /\ (imgHeight p == maxHeight centered 297)%Q
  /\ ~ exactlyOne (imgWidth p == maxWidth centered 210)%Q
                  (imgHeight p == maxHeight centered 297)%Q.
Proof.
  cbv zeta.
  assert (Hw : (imgWidth (layout centered 210 297
                   (aspectRatioOf (mkImage "blob:1" 200 287) (mkGrid 1 1)))
                == maxWidth centered 210)%Q) by reflexivity.
  assert (Hh : (imgHeight (layout centered 210 297
                   (aspectRatioOf (mkImage "blob:1" 200 287) (mkGrid 1 1)))
                == maxHeight centered 297)%Q) by reflexivity.
  repeat split; try reflexivity; try assumption.
  intros [[_ H] | [H _]]; contradiction.
Qed.

(** C6. The image is centred horizontally on the page: [x + imgWidth / 2]
    is [pageWidth / 2], for every aspect ratio and page size, in the centred
    revision and in the two others. *)
Theorem horizontally_centered (v : Variant) (pageWidth pageHeight aspectRatio : Q) :
  let p := layout v pageWidth pageHeight aspectRatio in
  (img_x p + imgWidth p / 2 == pageWidth / 2)%Q.
Proof.
  intros p.
  destruct (layout_branches v pageWidth pageHeight aspectRatio) as (_ & Hx).
  fold p in Hx. rewrite Hx. field.
Qed.

(** C8. Header and guides revision, A4 portrait (210 x 297 mm), margin 15,
    25 mm reserved, tile aspect ratio 2: [maxWidth] is 180 and
    [availableHeight] is 242; 2 exceeds 180/242, so the width-constrained
    branch gives [imgWidth] 180 and [imgHeight] 90. *)
Theorem a4_portrait_ratio_two (aspectRatio : Q) :
  (aspectRatio == 2)%Q ->
  let pdf := new_jsPDF portrait (pf_width (PAPER_FORMATS a4)) (pf_height (PAPER_FORMATS a4)) in
  let p := Guides.layout (pageWidth pdf) (pageHeight pdf) aspectRatio in
  pageWidth pdf = 210%Q /\ pageHeight pdf = 297%Q
  /\ (Guides.margin == 15)%Q
  /\ (Guides.maxWidth (pageWidth pdf) == 180)%Q
  /\ (Guides.availableHeight (pageHeight pdf) == 297 - 30 - 25)%Q
  /\ (Guides.availableHeight (pageHeight pdf) == 242)%Q
  /\ Qgtb aspectRatio (Guides.maxWidth (pageWidth pdf)
                       / Guides.availableHeight (pageHeight pdf)) = true
  /\ (imgWidth p == 180)%Q /\ (imgHeight p == 90)%Q.
Proof.
  intros Har pdf p.
  assert (Hgt : Qgtb aspectRatio (Guides.maxWidth 210 / Guides.availableHeight 297) = true).
  { apply Qgtb_true. rewrite Har. reflexivity. }
  repeat split; try reflexivity; try exact Hgt.
  - unfold p. simpl pageWidth. simpl pageHeight. unfold Guides.layout. cbv zeta.
    rewrite Hgt. reflexivity.
  - unfold p. simpl pageWidth. simpl pageHeight. unfold Guides.layout. cbv zeta.
    rewrite Hgt. simpl imgHeight. rewrite Har. reflexivity.
Qed.

Lemma a4_portrait_ratio_two_witness :
  let aspectRatio := aspectRatioOf (mkImage "blob:1" 1000 500) (mkGrid 1 1) in
  (aspectRatio == 2)%Q
  /\ (imgWidth (Guides.layout 210 297 aspectRatio) == 180)%Q
  /\ (imgHeight (Guides.layout 210 297 aspectRatio) == 90)%Q.
Proof.
  cbv zeta.
  assert (Har : (aspectRatioOf (mkImage "blob:1" 1000 500) (mkGrid 1 1) == 2)%Q)
    by reflexivity.
  split; [exact Har|].
  exact (proj2 (proj2 (proj2 (proj2 (proj2 (proj2 (proj2
           (a4_portrait_ratio_two _ Har)))))))).
Defined.

(** ** Page order and file name *)

Lemma map_nth_seq {A : Type} (d : A) (l : list A) :
  map (fun k => nth k l d) (seq 0 (List.length l)) = l.
Proof.
  induction l as [|a l IH]; [reflexivity|].
  simpl List.length. simpl seq. simpl map.
  rewrite <- seq_shift, map_map. simpl. now rewrite IH.
Qed.

Lemma imagesOn_pageOps v st img pw ph i :
  imagesOn (pageOps v st img pw ph i) = [pieceAt (previewData st) i].
Proof.
  destruct v; simpl; [reflexivity | | reflexivity].
  unfold Guides_pageOps. cbv zeta. destruct (showGuideLines st); reflexivity.
Qed.






(** C7, as amended.  When every tile of the preview has pixels, the document
    has one page per tile, each page carrying exactly its tile, in the order
    of the preview.  The file is named
    poster-<cols>x<rows>-<format>-<orientation>.pdf in the two revisions that
    have a paper format and an orientation, and poster-<cols>x<rows>.pdf in
    the first revision, which has neither. *)
Theorem export_pages_and_name v st img :
  imageData st = Some img -> previewData st <> [] ->
  forallb hasPixels (previewData st) = true ->
  exists doc name t,
    generatePDF v st = Saved doc name t
    /\ List.length (pages doc) = List.length (previewData st)
    /\ map imagesOn (pages doc) = map (fun p => [p]) (previewData st)
    /\ name = match v with
              | basic =>
                  ("poster-" ++ numberToString (horizontal (gridConfig st)) ++ "x"
                   ++ numberToString (vertical (gridConfig st)) ++ ".pdf")%string
              | _ => expectedName (gridConfig st) (paperFormat st) (orientation st)
              end.
Proof.
  intros Hi Hne Hpx.
  destruct (generatePDF_pages v st img Hi Hne Hpx) as (doc & Hdoc & _ & _ & Hpages).
  exists doc, (filename v st), (toast_success "PDF gerado e baixado!").
  split; [exact Hdoc|]. split; [|split].
  - now rewrite Hpages, length_map, length_seq.
  - rewrite Hpages, map_map.
    rewrite (map_ext _ (fun k => [nth k (previewData st) (mkPiece 0 0 None)])).
    + rewrite <- (map_map (fun k => nth k (previewData st) (mkPiece 0 0 None))
                          (fun p => [p])).
      now rewrite map_nth_seq.
    + intros k. rewrite imagesOn_pageOps. unfold pieceAt. now rewrite Nat2Z.id.
  - destruct v; reflexivity.
Qed.

Lemma export_pages_and_name_witness :
  exists doc name t,
    generatePDF guides st_preview_2x1 = Saved doc name t
    /\ List.length (pages doc) = 2%nat
    /\ name = "poster-2x1-a4-portrait.pdf"%string.
Proof.
  assert (Hne : previewData st_preview_2x1 <> []) by (simpl; discriminate).
  assert (Hpx : forallb hasPixels (previewData st_preview_2x1) = true) by reflexivity.
  destruct (export_pages_and_name guides st_preview_2x1 (mkImage "blob:1" 1000 500)
              eq_refl Hne Hpx) as (doc & name & t & Hdoc & Hlen & _ & Hname).
  exists doc, name, t. split; [exact Hdoc|]. split; [exact Hlen | exact Hname].
Defined.

(** C7, as stated, fails in the first revision: its file name has no format
    and no orientation. *)
Lemma basic_name_has_no_format :
  exists doc t,
    generatePDF basic st_preview_2x1 = Saved doc "poster-2x1.pdf" t
    /\ forall f o, "poster-2x1.pdf"%string <> expectedName (gridConfig st_preview_2x1) f o.
Proof.
  eexists. eexists. split; [reflexivity|].
  intros f o. destruct f, o; discriminate.
Qed.

(** ** Tile rasters *)

(** C10. The canvas is sized once before the loops, to the bitmap sizes
    derived from [imageWidth / columns] and [imageHeight / rows], and the
    loops never resize it: every tile raster of one run of [generatePreview]
    has these same pixel dimensions. *)
Theorem tiles_share_pixel_size st img cv :
  imageData st = Some img -> canvasRef st = Some cv -> context2d cv = true ->
  let pieces := previewData (fst (generatePreview st)) in
  let pieceWidth :=
    (inject_Z (img_width img) / inject_Z (horizontal (gridConfig st)))%Q in
  let pieceHeight :=
    (inject_Z (img_height img) / inject_Z (vertical (gridConfig st)))%Q in
  (forall p, In p pieces ->
     px_width p = toCanvasSize 300 pieceWidth
     /\ px_height p = toCanvasSize 150 pieceHeight)
  /\ (forall p q, In p pieces -> In q pieces ->
        px_width p = px_width q /\ px_height p = px_height q).
Proof.
  intros Hi Hc Hctx pieces pw ph.
  destruct (generatePreview_runs st img cv Hi Hc Hctx) as (Hp & _).
  fold pieces pw ph in Hp.
  assert (Hall : forall p, In p pieces ->
            px_width p = toCanvasSize 300 pw /\ px_height p = toCanvasSize 150 ph).
  { intros p Hin. rewrite Hp in Hin.
    apply in_tilesOf in Hin. destruct Hin as (row & col & _ & _ & ->).
    split; reflexivity. }
  split; [exact Hall|].
  intros p q Hp' Hq'. destruct (Hall p Hp') as [-> ->]. destruct (Hall q Hq') as [-> ->].
  split; reflexivity.
Qed.

Lemma tiles_share_pixel_size_witness :
  map px_width (previewData (fst (generatePreview st_1001x500_2x1))) = [500; 500]
  /\ forall p, In p (previewData (fst (generatePreview st_1001x500_2x1))) ->
               px_width p = 500 /\ px_height p = 500.
Proof.
  split; [reflexivity|].
  exact (proj1 (tiles_share_pixel_size st_1001x500_2x1 (mkImage "blob:2" 1001 500)
                  aCanvas eq_refl eq_refl eq_refl)).
Defined.

(** ** The grid inputs *)

Example parseInt_suffix : parseInt "12px" = Some 12.
Proof. reflexivity. Qed.

Example parseInt_fraction : parseInt "2.5" = Some 2.
Proof. reflexivity. Qed.

Example parseInt_exponent : parseInt "1e3" = Some 1.
Proof. reflexivity. Qed.

Example parseInt_hex : parseInt "0x1A" = Some 26.
Proof. reflexivity. Qed.

Example parseInt_space_sign : parseInt "  -7" = Some (-7).
Proof. reflexivity. Qed.

Example parseInt_sign_only : parseInt "-" = None.
Proof. reflexivity. Qed.

Lemma orOne_nonzero (p : option Z) : orOne p <> 0.
Proof.
  destruct p as [n|]; simpl; [|lia].
  destruct (Z.eqb_spec n 0); lia.
Qed.

(** The grid inputs never store zero. *)
Lemma grid_inputs_keep_nonzero (value : string) (st : State) :
  horizontal (gridConfig st) <> 0 -> vertical (gridConfig st) <> 0 ->
  (horizontal (gridConfig (onChangeHorizontal value st)) <> 0
   /\ vertical (gridConfig (onChangeHorizontal value st)) <> 0)
  /\ (horizontal (gridConfig (onChangeVertical value st)) <> 0
      /\ vertical (gridConfig (onChangeVertical value st)) <> 0).
Proof.
  intros Hh Hv. simpl. pose proof (orOne_nonzero (parseInt value)). tauto.
Qed.

(** C9. A typed value that parses to [NaN] or to zero is stored as 1; a
    value that parses to a negative integer is stored as it is; and with a
    negative grid dimension, an image and a canvas, [generatePreview] runs,
    stores an empty tile list and notifies success, not an error. *)
Theorem grid_input_coercion (value : string) (st : State) :
  let h := horizontal (gridConfig (onChangeHorizontal value st)) in
  let v := vertical (gridConfig (onChangeVertical value st)) in
  (parseInt value = None \/ parseInt value = Some 0 -> h = 1 /\ v = 1)
  /\ (forall n, parseInt value = Some n -> n < 0 -> h = n /\ v = n)
  /\ (forall img cv,
        imageData st = Some img -> canvasRef st = Some cv -> context2d cv = true ->
        horizontal (gridConfig st) < 0 \/ vertical (gridConfig st) < 0 ->
        previewData (fst (generatePreview st)) = []
        /\ snd (generatePreview st) = [toast_success "Pré-visualização gerada!"]).
Proof.
  cbv zeta. split; [|split].
  - intros [H | H]; simpl; rewrite H; split; reflexivity.
  - intros n H Hn. simpl. rewrite H. simpl.
    destruct (Z.eqb_spec n 0); [lia | split; reflexivity].
  - intros img cv Hi Hc Hctx Hneg.
    destruct (generatePreview_runs st img cv Hi Hc Hctx) as (Hp & Ht & _).
    split; [|exact Ht].
    rewrite Hp. apply tilesOf_empty. lia.
Qed.

Lemma grid_input_coercion_witness :
  parseInt "" = None /\ parseInt "0" = Some 0 /\ parseInt "-3" = Some (-3)
  /\ horizontal (gridConfig (onChangeHorizontal "" st_loaded)) = 1
  /\ vertical (gridConfig (onChangeVertical "0" st_loaded)) = 1
  /\ horizontal (gridConfig (onChangeHorizontal "-3" st_loaded)) = -3
  /\ previewData (fst (generatePreview (onChangeHorizontal "-3" st_loaded))) = [].
Proof.
  split; [reflexivity|]. split; [reflexivity|]. split; [reflexivity|].
  split; [exact (proj1 (proj1 (grid_input_coercion "" st_loaded) (or_introl eq_refl)))|].
  split; [exact (proj2 (proj1 (grid_input_coercion "0" st_loaded) (or_intror eq_refl)))|].
  split.
  - exact (proj1 (proj1 (proj2 (grid_input_coercion "-3" st_loaded))
                        (-3) eq_refl ltac:(lia))).
  - assert (Hneg : horizontal (gridConfig (onChangeHorizontal "-3" st_loaded)) < 0)
      by reflexivity.
    exact (proj1 (proj2 (proj2 (grid_input_coercion "-3"
                                  (onChangeHorizontal "-3" st_loaded)))
                        (mkImage "blob:1" 1000 500) aCanvas eq_refl eq_refl eq_refl
                        (or_introl Hneg))).
Defined.

(** ** Invalid input *)

(** C4.  The code does not do what the claim says.  The grid inputs keep a
    typed zero or an empty entry out of the grid (both are stored as 1), but
    a typed -3 is stored as it is; with it [generatePreview] is not
    rejected: it runs, stores an empty tile list and notifies success. *)
Theorem negative_grid_not_rejected :
  let st := onChangeHorizontal "-3" st_loaded in
  horizontal (gridConfig (onChangeHorizontal "0" st_loaded)) = 1
  /\ horizontal (gridConfig (onChangeHorizontal "" st_loaded)) = 1
  /\ gridConfig st = mkGrid (-3) 2
  /\ imageData st = Some (mkImage "blob:1" 1000 500)
  /\ previewData (fst (generatePreview st)) = []
  /\ snd (generatePreview st) = [toast_success "Pré-visualização gerada!"]
  /\ ~ previewRejected st.
Proof.
  cbv zeta. repeat split; try reflexivity.
  intros [_ H]. discriminate H.
Qed.

(** ** Aspect ratios that are zero or negative *)

(** The page sizes [generatePDF] can meet are positive, and so is the
    drawable area of each revision on each of them. *)
Lemma newDocument_positive v st :
  (0 < pageWidth (newDocument v st) /\ 0 < pageHeight (newDocument v st)
   /\ 0 < maxWidth v (pageWidth (newDocument v st))
   /\ 0 < testHeight v (pageHeight (newDocument v st))
   /\ 0 < drawableHeight v (pageHeight (newDocument v st)))%Q.
Proof.
  destruct v; simpl; [repeat split | |];
    destruct (paperFormat st), (orientation st); repeat split.
Qed.

Lemma addImage_in_pageOps v st img pw ph i :
  let p := layout v pw ph (aspectRatioOf img (gridConfig st)) in
  In (addImage (pieceAt (previewData st) i) (img_x p) (img_y p) (imgWidth p) (imgHeight p))
     (pageOps v st img pw ph i).
Proof.
  destruct v; cbv zeta; unfold pageOps, layout.
  - simpl. right. right. left. reflexivity.
  - unfold Guides_pageOps. cbv zeta. apply in_or_app. right. left. reflexivity.
  - simpl. left. reflexivity.
Qed.

(** Every page of a saved document carries an image placed by [layout]. *)
Lemma pages_carry_layout v st img doc name t :
  imageData st = Some img -> generatePDF v st = Saved doc name t ->
  let p := layout v (pageWidth doc) (pageHeight doc) (aspectRatioOf img (gridConfig st)) in
  forall ops, In ops (pages doc) ->
    exists piece, In (addImage piece (img_x p) (img_y p) (imgWidth p) (imgHeight p)) ops.
Proof.
  intros Hi Hsaved p ops Hin.
  destruct (Saved_preview v st doc name t Hsaved) as [Hne Hpx].
  destruct (generatePDF_pages v st img Hi Hne Hpx) as (doc' & Hdoc & _ & _ & Hpages).
  rewrite Hsaved in Hdoc. injection Hdoc as <- _.
  rewrite Hpages in Hin. apply in_map_iff in Hin. destruct Hin as (k & <- & _).
  exists (pieceAt (previewData st) (Z.of_nat k)). apply addImage_in_pageOps.
Qed.




(** ** The decimal form of a grid entry read back by [parseInt] *)

Lemma digitValue_not_digit c : isDecimalDigit c = false -> digitValue 10 c = None.
Proof.
  unfold isDecimalDigit, digitValue. cbv zeta.
  set (n := Z.of_nat (nat_of_ascii c)). intros H. rewrite H.
  destruct ((97 <=? n) && (n <=? 122)) eqn:E1.
  - apply andb_true_iff in E1. destruct E1 as [E1 _]. apply Z.leb_le in E1.
    destruct (Z.ltb_spec (n - 87) 10); [lia | reflexivity].
  - destruct ((65 <=? n) && (n <=? 90)) eqn:E2; [|reflexivity].
    apply andb_true_iff in E2. destruct E2 as [E2 _]. apply Z.leb_le in E2.
    destruct (Z.ltb_spec (n - 55) 10); [lia | reflexivity].
Qed.

Lemma readDigits_stops acc rest :
  stopsNumber rest = true -> readDigits 10 acc rest = acc.
Proof.
  destruct rest as [|c rest]; [reflexivity|]. simpl. intros H.
  apply andb_true_iff in H. destruct H as [H _].
  apply andb_true_iff in H. destruct H as [H _].
  apply negb_true_iff in H. now rewrite (digitValue_not_digit c H).
Qed.

Lemma readDigits_decimal (d : Decimal.uint) :
  forall acc rest,
    readDigits 10 (Some acc) (NilEmpty.string_of_uint d ++ rest)
    = readDigits 10 (Some (digitsValue acc d)) rest.
Proof.
  induction d; intros acc rest; simpl; try reflexivity; apply IHd.
Qed.

Lemma readDigits_decimal_first (d : Decimal.uint) rest :
  d <> Decimal.Nil ->
  readDigits 10 None (NilEmpty.string_of_uint d ++ rest)
  = readDigits 10 (Some (digitsValue 0 d)) rest.
Proof.
  intros Hd. destruct d; [congruence | ..]; simpl; apply readDigits_decimal.
Qed.

Lemma of_uint_acc_digitsValue (d : Decimal.uint) :
  forall acc, Z.pos (Pos.of_uint_acc d acc) = digitsValue (Z.pos acc) d.
Proof.
  induction d; intros acc; cbn [Pos.of_uint_acc digitsValue]; try reflexivity;
    rewrite IHd; f_equal; lia.
Qed.

Lemma of_uint_digitsValue (d : Decimal.uint) :
  Z.of_N (Pos.of_uint d) = digitsValue 0 d.
Proof.
  induction d; cbn [Pos.of_uint digitsValue Z.of_N]; try reflexivity; try assumption;
    apply of_uint_acc_digitsValue.
Qed.

Lemma digitsValue_to_uint (p : positive) : digitsValue 0 (Pos.to_uint p) = Z.pos p.
Proof.
  rewrite <- of_uint_digitsValue, DecimalPos.Unsigned.of_to. reflexivity.
Qed.

Lemma parseInt_uint (d : Decimal.uint) (rest : string) :
  d <> Decimal.Nil -> d <> Decimal.D0 Decimal.Nil -> stopsNumber rest = true ->
  parseInt (NilEmpty.string_of_uint d ++ rest) = Some (digitsValue 0 d)
  /\ parseInt (String "-" (NilEmpty.string_of_uint d ++ rest)) = Some (- digitsValue 0 d).
Proof.
  intros Hnil Hzero Hrest.
  assert (Hgoal :
            match readDigits 10 None (NilEmpty.string_of_uint d ++ rest) with
            | Some n => Some (1 * n)
            | None => None
            end = Some (digitsValue 0 d)
            /\ match readDigits 10 None (NilEmpty.string_of_uint d ++ rest) with
               | Some n => Some (-1 * n)
               | None => None
               end = Some (- digitsValue 0 d)).
  { rewrite readDigits_decimal_first, readDigits_stops by assumption.
    split; f_equal; lia. }
  destruct Hgoal as [Hpos Hneg].
  destruct d as [|l|l|l|l|l|l|l|l|l|l]; [congruence | | | | | | | | | |];
    try (split; [rewrite <- Hpos | rewrite <- Hneg]; reflexivity).
  destruct l as [|l|l|l|l|l|l|l|l|l|l]; [congruence | | | | | | | | | |];
    (split; [rewrite <- Hpos | rewrite <- Hneg]; reflexivity).
Qed.

(** The characters at which a number stops are not [x], so ["0"] followed
    by such a suffix is not read as a hexadecimal prefix. *)
Lemma parseInt_zero (rest : string) :
  stopsNumber rest = true -> parseInt (String "0" rest) = Some 0.
Proof.
  intros Hrest.
  assert (Hread : readDigits 10 None (String "0" rest) = Some 0).
  { change (readDigits 10 None (String "0" rest))
      with (readDigits 10 (Some 0) rest).
    now apply readDigits_stops. }
  destruct rest as [|c rest]; [reflexivity|].
  assert (Hx : Ascii.eqb c "x" = false /\ Ascii.eqb c "X" = false).
  { simpl in Hrest. apply andb_true_iff in Hrest. destruct Hrest as [H1 H2].
    apply andb_true_iff in H1. destruct H1 as [_ H1].
    apply negb_true_iff in H1, H2. now split. }
  destruct Hx as [Hx HX].
  transitivity (match readDigits 10 None (String "0" (String c rest)) with
                | Some n => Some (1 * n)
                | None => None
                end); [|now rewrite Hread].
  destruct c as [b0 b1 b2 b3 b4 b5 b6 b7].
  destruct b0, b1, b2, b3, b4, b5, b6, b7;
    first [discriminate Hx | discriminate HX | reflexivity].
Qed.

Lemma parseInt_number_aux (n : Z) : parseInt (numberToString n) = Some n.
Proof.
  assert (Hrest : stopsNumber "" = true) by reflexivity.
  assert (Happ : forall s, (s ++ "")%string = s).
  { induction s as [|c s IH]; simpl; [reflexivity | now rewrite IH]. }
  rewrite <- (Happ (numberToString n)).
  unfold numberToString. destruct n as [|p|p]; simpl Z.to_int.
  - now apply parseInt_zero.
  - unfold NilZero.string_of_int, NilZero.string_of_uint.
    pose proof (DecimalPos.Unsigned.to_uint_nonnil p) as Hnil.
    pose proof (DecimalPos.Unsigned.to_uint_nonzero p) as Hnz.
    destruct (parseInt_uint (Pos.to_uint p) "" Hnil Hnz Hrest) as [H _].
    rewrite digitsValue_to_uint in H.
    destruct (Pos.to_uint p); [congruence | exact H ..].
  - unfold NilZero.string_of_int, NilZero.string_of_uint.
    pose proof (DecimalPos.Unsigned.to_uint_nonnil p) as Hnil.
    pose proof (DecimalPos.Unsigned.to_uint_nonzero p) as Hnz.
    destruct (parseInt_uint (Pos.to_uint p) "" Hnil Hnz Hrest) as [_ H].
    rewrite digitsValue_to_uint in H.
    destruct (Pos.to_uint p); [congruence | exact H ..].
Qed.

(** X1. Reading back the decimal form of an integer: [parseInt] applied to
    the text that a template literal (or the [value] of the grid input) shows
    for [n], followed by any suffix that does not continue the number, gives
    [n] again; and typing into a grid input the value it already shows
    leaves the state as it is, as long as that value is not zero. *)
Theorem parseInt_numberToString (n : Z) (rest : string) :
  stopsNumber rest = true ->
  parseInt (numberToString n ++ rest) = Some n
  /\ forall st,
       (horizontal (gridConfig st) = n -> n <> 0 ->
        gridConfig (onChangeHorizontal (numberToString n ++ rest) st) = gridConfig st)
       /\ (vertical (gridConfig st) = n -> n <> 0 ->
           gridConfig (onChangeVertical (numberToString n ++ rest) st) = gridConfig st).
Proof.
  intros Hrest.
  assert (Hparse : parseInt (numberToString n ++ rest) = Some n).
  { unfold numberToString. destruct n as [|p|p]; simpl Z.to_int.
    - now apply parseInt_zero.
    - unfold NilZero.string_of_int, NilZero.string_of_uint.
      pose proof (DecimalPos.Unsigned.to_uint_nonnil p) as Hnil.
      pose proof (DecimalPos.Unsigned.to_uint_nonzero p) as Hnz.
      destruct (parseInt_uint (Pos.to_uint p) rest Hnil Hnz Hrest) as [H _].
      rewrite digitsValue_to_uint in H.
      destruct (Pos.to_uint p); [congruence | exact H ..].
    - unfold NilZero.string_of_int, NilZero.string_of_uint.
      pose proof (DecimalPos.Unsigned.to_uint_nonnil p) as Hnil.
      pose proof (DecimalPos.Unsigned.to_uint_nonzero p) as Hnz.
      destruct (parseInt_uint (Pos.to_uint p) rest Hnil Hnz Hrest) as [_ H].
      rewrite digitsValue_to_uint in H.
      destruct (Pos.to_uint p); [congruence | exact H ..]. }
  split; [exact Hparse|].
  intros st. split; intros Heq Hn0; simpl; rewrite Hparse; simpl;
    destruct (Z.eqb_spec n 0); try lia; destruct (gridConfig st); simpl in *;
    now subst.
Qed.

Lemma parseInt_numberToString_witness :
  parseInt "-12px" = Some (-12)
  /\ gridConfig (onChangeHorizontal "2" st_loaded) = gridConfig st_loaded.
Proof.
  assert (Hstop : stopsNumber "px" = true) by reflexivity.
  assert (Hstop' : stopsNumber "" = true) by reflexivity.
  split.
  - exact (proj1 (parseInt_numberToString (-12) "px" Hstop)).
  - assert (Hn : 2 <> 0) by lia.
    exact (proj1 (proj2 (parseInt_numberToString 2 "" Hstop') st_loaded) eq_refl Hn).
Defined.

(** ** File selection and drop *)

(** The state a selection leaves: at most the image changes. *)
Lemma finish_state sel st :
  let st' := fst (finish sel st) in
  gridConfig st' = gridConfig st /\ previewData st' = previewData st
  /\ paperFormat st' = paperFormat st /\ orientation st' = orientation st
  /\ showGuideLines st' = showGuideLines st /\ canvasRef st' = canvasRef st
  /\ (imageData st' = imageData st \/ exists img, imageData st' = Some img).
Proof.
  destruct sel as [|t|file]; simpl; try (repeat split; now left).
  unfold img_onload. destruct (natural file) as [[w h]|]; simpl.
  - repeat split. right. eexists. reflexivity.
  - repeat split. now left.
Qed.

(** X2. A drop is the selection of the first file of an accepted type: it
    starts the load of that file, never shows the "unsupported format"
    error, and does nothing when no dropped file has an accepted type;
    whereas a selection looks at the first file only and refuses it when its
    type is not accepted, whatever follows it. *)
Theorem onDrop_first_supported (files : list File) :
  onDrop files
  = match find (fun file => includes acceptedTypes (file_type file)) files with
    | Some imageFile => Loading imageFile
    | None => NoFile
    end
  /\ (forall t, onDrop files <> Unsupported t)
  /\ (forall file, onDrop files = Loading file ->
        In file files /\ In (file_type file) acceptedTypes)
  /\ (onDrop files = NoFile ->
        forall file, In file files -> ~ In (file_type file) acceptedTypes)
  /\ (forall file rest,
        files = file :: rest -> ~ In (file_type file) acceptedTypes ->
        exists msg, handleFileSelect files = Unsupported (toast_error msg)).
Proof.
  assert (Hinc : forall s, includes acceptedTypes s = true <-> In s acceptedTypes).
  { intros s. unfold includes. rewrite existsb_exists. split.
    - intros (x & Hin & Heq). apply String.eqb_eq in Heq. now subst.
    - intros Hin. exists s. split; [assumption | apply String.eqb_refl]. }
  assert (Hdrop : onDrop files
                  = match find (fun file => includes acceptedTypes (file_type file)) files with
                    | Some imageFile => Loading imageFile
                    | None => NoFile
                    end).
  { unfold onDrop.
    destruct (find _ files) as [f|] eqn:E; [|reflexivity].
    apply find_some in E. destruct E as [_ E]. unfold handleFileSelect.
    now rewrite E. }
  split; [exact Hdrop|]. rewrite Hdrop.
  destruct (find _ files) as [f|] eqn:E.
  - apply find_some in E. destruct E as [Hin Hsup].
    split; [discriminate|]. split; [|split; [discriminate|]].
    + intros file [= <-]. split; [assumption | now apply Hinc].
    + intros file rest -> Hno. unfold handleFileSelect. eexists.
      destruct (includes acceptedTypes (file_type file)) eqn:E';
        [apply Hinc in E'; contradiction | reflexivity].
  - split; [discriminate|]. split; [discriminate|]. split.
    + intros _ file Hin Hacc.
      pose proof (find_none _ _ E file Hin) as Hf. cbv beta in Hf.
      apply Hinc in Hacc. congruence.
    + intros file rest -> Hno. unfold handleFileSelect. eexists.
      destruct (includes acceptedTypes (file_type file)) eqn:E';
        [apply Hinc in E'; contradiction | reflexivity].
Qed.

Lemma onDrop_first_supported_witness :
  onDrop [gif_file; png_file] = Loading png_file
  /\ exists msg, handleFileSelect [gif_file; png_file] = Unsupported (toast_error msg).
Proof.
  split.
  - exact (proj1 (onDrop_first_supported [gif_file; png_file])).
  - assert (Hno : ~ In (file_type gif_file) acceptedTypes).
    { simpl. intros [H | [H | [H | H]]]; try discriminate H; exact H. }
    exact (proj2 (proj2 (proj2 (proj2 (onDrop_first_supported [gif_file; png_file]))))
             gif_file [png_file] eq_refl Hno).
Defined.

(** ** States the component can reach *)

Lemma generatePreview_cases st :
  generatePreview st = (st, [])
  \/ exists img cv, imageData st = Some img /\ canvasRef st = Some cv
                    /\ context2d cv = true.
Proof.
  unfold generatePreview.
  destruct (imageData st) as [img|]; [|now left].
  destruct (canvasRef st) as [cv|]; [|now left].
  destruct (context2d cv) eqn:E; [|now left].
  right. exists img, cv. repeat split. assumption.
Qed.

Lemma step_invariant st e : stateInvariant st -> stateInvariant (step st e).
Proof.
  intros (Hh & Hv & Hp). destruct e as [files|files|value|value|f|o|b|]; simpl.
  - destruct (finish_state (handleFileSelect files) st)
      as (Hg & Hpd & _ & _ & _ & _ & Hi).
    unfold stateInvariant. rewrite Hg, Hpd. repeat split; try assumption.
    intros Hne. destruct Hi as [Hi | (img & Hi)]; rewrite Hi; [auto | discriminate].
  - destruct (finish_state (onDrop files) st) as (Hg & Hpd & _ & _ & _ & _ & Hi).
    unfold stateInvariant. rewrite Hg, Hpd. repeat split; try assumption.
    intros Hne. destruct Hi as [Hi | (img & Hi)]; rewrite Hi; [auto | discriminate].
  - destruct (grid_inputs_keep_nonzero value st Hh Hv) as [[H1 H2] _].
    repeat split; assumption.
  - destruct (grid_inputs_keep_nonzero value st Hh Hv) as [_ [H1 H2]].
    repeat split; assumption.
  - repeat split; assumption.
  - repeat split; assumption.
  - repeat split; assumption.
  - destruct (generatePreview_cases st) as [E | (img & cv & Hi & Hc & Hctx)].
    + rewrite E. repeat split; assumption.
    + destruct (generatePreview_runs st img cv Hi Hc Hctx) as (_ & _ & Hg & Him).
      unfold stateInvariant. rewrite Hg, Him, Hi. repeat split; try assumption.
      discriminate.
Qed.

(** X3. Whatever the user does, starting from the initial state: no grid
    entry is ever zero (so no piece size or aspect ratio divides by zero),
    a preview is only present together with an image, and so the
    [imageData!] of [generatePDF] never fails, and in each revision the
    export refuses exactly when the preview is empty. *)
Theorem reachable_states (cv : option Canvas) (events : list Event) :
  let st := run cv events in
  horizontal (gridConfig st) <> 0 /\ vertical (gridConfig st) <> 0
  /\ (previewData st <> [] -> imageData st <> None)
  /\ forall v,
       generatePDF v st <> TypeError
       /\ (previewData st = [] <-> exists t, generatePDF v st = NoPreview t).
Proof.
  assert (Hinv : stateInvariant (run cv events)).
  { unfold run. induction events as [|e events IH] using rev_ind.
    - simpl. repeat split; try discriminate. intros H. now contradiction H.
    - rewrite fold_left_app. simpl. now apply step_invariant. }
  cbv zeta. destruct Hinv as (Hh & Hv & Hp).
  split; [exact Hh|]. split; [exact Hv|]. split; [exact Hp|].
  intros v. set (st := run cv events) in *.
  destruct (previewData st) as [|p ps] eqn:Epd.
  - split.
    + destruct v; simpl; unfold Basic.generatePDF, Guides.generatePDF,
        Centered.generatePDF; rewrite Epd; discriminate.
    + split; [intros _ | reflexivity].
      destruct v; simpl; unfold Basic.generatePDF, Guides.generatePDF,
        Centered.generatePDF; rewrite Epd; eexists; reflexivity.
  - destruct (imageData st) as [img|] eqn:Ei; [|exfalso; apply Hp; [discriminate | reflexivity]].
    destruct (generatePDF_outcome v st img Ei)
      as [[E _] | [(_ & _ & Hout) | (_ & _ & doc & name & t & Hout)]];
      [rewrite Epd in E; discriminate E | |];
      rewrite Hout; (split; [discriminate|]);
      (split; [discriminate | intros (t' & Ht); discriminate Ht]).
Qed.

(** ** The preview as a function of the image and the grid *)

Lemma fold_left_invariant {A B : Type} (f : A -> B -> A) (P : A -> Prop) (l : list B) :
  forall a, P a -> (forall a b, P a -> P (f a b)) -> P (fold_left f l a).
Proof.
  induction l as [|b l IH]; intros a Ha Hstep; simpl; [assumption|].
  apply IH; [now apply Hstep | assumption].
Qed.

(** The loops leave the 2d context of the canvas as it is. *)
Lemma cropLoops_context totalCols totalRows pw ph cv :
  context2d (fst (cropLoops totalCols totalRows pw ph cv)) = context2d cv.
Proof.
  unfold cropLoops, for_loop.
  apply (fold_left_invariant _ (fun acc => context2d (fst acc) = context2d cv));
    [reflexivity|].
  intros acc r Hacc.
  apply (fold_left_invariant _ (fun acc => context2d (fst acc) = context2d cv));
    [assumption|].
  intros [c ps] k Hc. exact Hc.
Qed.

Lemma sizedCanvas_context img g cv cv' :
  context2d cv = context2d cv' -> sizedCanvas img g cv = sizedCanvas img g cv'.
Proof. intros H. unfold sizedCanvas, set_height, set_width. simpl. now rewrite H. Qed.

(** X4. The preview is a function of the image and the grid alone: the size
    and content the shared canvas was left with and the previous preview do
    not show in it, so clicking "generate preview" a second time changes
    nothing, and two states with the same image and grid (and a usable
    canvas) get the same tiles. *)
Theorem preview_of_image_and_grid (st : State) :
  generatePreview (fst (generatePreview st)) = generatePreview st
  /\ forall st2 img cv cv2,
       imageData st = Some img -> imageData st2 = Some img ->
       gridConfig st2 = gridConfig st ->
       canvasRef st = Some cv -> context2d cv = true ->
       canvasRef st2 = Some cv2 -> context2d cv2 = true ->
       previewData (fst (generatePreview st2)) = previewData (fst (generatePreview st)).
Proof.
  split.
  - destruct (generatePreview_cases st) as [E | (img & cv & Hi & Hc & Hctx)].
    + rewrite E. simpl. exact E.
    + unfold generatePreview at 2 3. rewrite Hi, Hc, Hctx. simpl negb. cbv iota.
      fold (sizedCanvas img (gridConfig st) cv).
      pose proof (cropLoops_context (horizontal (gridConfig st)) (vertical (gridConfig st))
                    (inject_Z (img_width img) / inject_Z (horizontal (gridConfig st)))
                    (inject_Z (img_height img) / inject_Z (vertical (gridConfig st)))
                    (sizedCanvas img (gridConfig st) cv)) as Hcx.
      destruct (cropLoops _ _ _ _ (sizedCanvas img (gridConfig st) cv))
        as [cvF pieces] eqn:Eloops.
      simpl in Hcx. simpl fst.
      assert (HcF : context2d cvF = true) by (rewrite Hcx; exact Hctx).
      unfold generatePreview. simpl imageData. simpl canvasRef. simpl gridConfig.
      rewrite Hi, HcF. simpl negb. cbv iota.
      fold (sizedCanvas img (gridConfig st) cvF).
      rewrite (sizedCanvas_context img (gridConfig st) cvF cv) by congruence.
      rewrite Eloops. reflexivity.
  - intros st2 img cv cv2 Ei Hi Hg Hc Hctx Hc2 Hctx2.
    destruct (generatePreview_runs st img cv Ei Hc Hctx) as (-> & _).
    destruct (generatePreview_runs st2 img cv2 Hi Hc2 Hctx2) as (-> & _).
    rewrite Hg.
    rewrite (sizedCanvas_context img (gridConfig st) cv2 cv) by congruence.
    reflexivity.
Qed.

Lemma preview_of_image_and_grid_witness :
  previewData (fst (generatePreview st_used_canvas))
  = previewData (fst (generatePreview st_loaded)).
Proof.
  exact (proj2 (preview_of_image_and_grid st_loaded) st_used_canvas
               (mkImage "blob:1" 1000 500)
               aCanvas (mkCanvas 640 480 true None)
               eq_refl eq_refl eq_refl eq_refl eq_refl eq_refl eq_refl).
Defined.

(** ** The pixel size of the tiles *)

(** X5. The tile rasters are whole pixels: for a grid of at least one
    column and one row and an image whose piece size is within the range of
    a canvas size, every tile is [W / columns] pixels wide and [H / rows]
    pixels high by integer division, so the tiles of a row together are
    [W mod columns] pixels narrower than the image, and the tiles of a column
    [H mod rows] pixels shorter. *)
Theorem tile_pixel_size st img cv :
  imageData st = Some img -> canvasRef st = Some cv -> context2d cv = true ->
  1 <= horizontal (gridConfig st) -> 1 <= vertical (gridConfig st) ->
  0 <= img_width img -> 0 <= img_height img ->
  img_width img / horizontal (gridConfig st) <= 2147483647 ->
  img_height img / vertical (gridConfig st) <= 2147483647 ->
  forall p, In p (previewData (fst (generatePreview st))) ->
    px_width p = img_width img / horizontal (gridConfig st)
    /\ px_height p = img_height img / vertical (gridConfig st)
    /\ horizontal (gridConfig st) * px_width p
       = img_width img - img_width img mod horizontal (gridConfig st)
    /\ vertical (gridConfig st) * px_height p
       = img_height img - img_height img mod vertical (gridConfig st).
Proof.
  intros Hi Hc Hctx Hcols Hrows HW HH HWmax HHmax p Hin.
  destruct (tiles_share_pixel_size_aux st img cv Hi Hc Hctx p Hin) as [Hw Hh].
  rewrite toCanvasSize_quotient in Hw by lia.
  rewrite toCanvasSize_quotient in Hh by lia.
  rewrite Hw, Hh. split; [reflexivity|]. split; [reflexivity|].
  pose proof (Z.div_mod (img_width img) (horizontal (gridConfig st))).
  pose proof (Z.div_mod (img_height img) (vertical (gridConfig st))).
  split; lia.
Qed.

Lemma tile_pixel_size_witness :
  let p := pieceAt (previewData (fst (generatePreview st_1001x500_2x1))) 1 in
  px_width p = 500 /\ 2 * px_width p = 1001 - 1.
Proof.
  cbv zeta.
  assert (Hin : In (pieceAt (previewData (fst (generatePreview st_1001x500_2x1))) 1)
                   (previewData (fst (generatePreview st_1001x500_2x1)))).
  { simpl. right. left. reflexivity. }
  destruct (tile_pixel_size st_1001x500_2x1 (mkImage "blob:2" 1001 500) aCanvas
              eq_refl eq_refl eq_refl ltac:(simpl; lia) ltac:(simpl; lia)
              ltac:(simpl; lia) ltac:(simpl; lia)
              ltac:(vm_compute; discriminate) ltac:(vm_compute; discriminate)
              _ Hin) as (Hw & _ & Hsum & _).
  split; [exact Hw | exact Hsum].
Defined.

(** ** The image on the page *)

Lemma layout_y v pw ph ar :
  img_y (layout v pw ph ar)
  = match v with
    | basic => (Basic.margin + 20)%Q
    | guides => (Guides.margin + 15)%Q
    | centered => ((ph - imgHeight (layout v pw ph ar)) / 2)%Q
    end.
Proof.
  destruct v; simpl; unfold Basic.layout, Guides.layout, Centered.layout; cbv zeta;
    match goal with |- context [Qgtb ?a ?b] => destruct (Qgtb a b) end; reflexivity.
Qed.

Lemma Qhalf (a : Q) : (a / 2 == a * (1 # 2))%Q.
Proof. field. Qed.

(** A quotient by a positive number, as a product. *)
Lemma Qdiv_mult_pos (a b : Q) : (0 < b -> (a / b) * b == a)%Q.
Proof. intros Hb. field. lra. Qed.

(** The size of the image in the first revision, against the area between
    the margins. *)
Lemma basic_fit (pw ph ar : Q) :
  (0 < ar -> 0 < Basic.maxWidth pw -> 0 < Basic.maxHeight ph - 20 ->
   let p := Basic.layout pw ph ar in
   0 < imgWidth p /\ imgWidth p <= Basic.maxWidth pw
   /\ 0 < imgHeight p /\ imgHeight p < Basic.maxHeight ph
   /\ (Qgtb ar (Basic.maxWidth pw / Basic.maxHeight ph) = true ->
       imgHeight p * ar == Basic.maxWidth pw /\ Basic.maxWidth pw < ar * Basic.maxHeight ph)
   /\ (Qgtb ar (Basic.maxWidth pw / Basic.maxHeight ph) = false ->
       imgHeight p == Basic.maxHeight ph - 20 /\ ar * Basic.maxHeight ph <= Basic.maxWidth pw))%Q.
Proof.
  intros Har Hmw Hdh p.
  destruct (layout_branches basic pw ph ar) as (Hb & _).
  simpl in Hb. fold p in Hb.
  set (mw := Basic.maxWidth pw) in *. set (mh := Basic.maxHeight ph) in *.
  assert (Hmh : (0 < mh)%Q) by lra.
  pose proof (Qdiv_mult_pos mw mh Hmh) as Ht.
  pose proof (Qdiv_mult_pos mw ar Har) as Hu.
  destruct (Qgtb ar (mw / mh)) eqn:E; injection Hb as Hw Hh; rewrite Hw, Hh.
  - apply Qgtb_true in E.
    assert (Hlt : (mw < ar * mh)%Q) by nra.
    assert (Hu0 : (0 < mw / ar)%Q) by (apply Qlt_shift_div_l; lra).
    repeat split; try lra; try discriminate; try (intros _; lra).
    nra.
  - apply Qgtb_false in E.
    assert (Hle : (ar * mh <= mw)%Q) by nra.
    repeat split; try lra; try discriminate; try nra.
Qed.

(** The size of the image in the two later revisions, against the drawable
    area. *)
Lemma fit_bounds v (pw ph ar : Q) :
  v <> basic ->
  (0 < ar -> 0 < maxWidth v pw -> 0 < drawableHeight v ph ->
   let p := layout v pw ph ar in
   0 < imgWidth p /\ imgWidth p <= maxWidth v pw
   /\ 0 < imgHeight p /\ imgHeight p <= drawableHeight v ph)%Q.
Proof.
  intros Hv Har Hmw Hdh p.
  destruct (layout_branches v pw ph ar) as (Hb & _). fold p in Hb.
  assert (Hth : testHeight v ph = drawableHeight v ph) by (destruct v; [congruence | reflexivity ..]).
  rewrite Hth in Hb.
  set (mw := maxWidth v pw) in *. set (dh := drawableHeight v ph) in *.
  pose proof (Qdiv_mult_pos mw dh Hdh) as Ht.
  pose proof (Qdiv_mult_pos mw ar Har) as Hu.
  destruct (Qgtb ar (mw / dh)) eqn:E; injection Hb as Hw Hh; rewrite Hw, Hh.
  - apply Qgtb_true in E.
    assert (Hlt : (mw < ar * dh)%Q) by nra.
    assert (Hu0 : (0 < mw / ar)%Q) by (apply Qlt_shift_div_l; lra).
    repeat split; try lra. nra.
  - apply Qgtb_false in E.
    assert (Hle : (ar * dh <= mw)%Q) by nra.
    repeat split; try lra; nra.
Qed.

(** X6. In the two revisions of part_000 the image fits the page: for a
    positive aspect ratio and a drawable area of positive size it is no
    wider than [maxWidth] and no higher than the drawable height, and it
    lies between the four margins of the page. *)
Theorem image_within_margins v (pageWidth pageHeight aspectRatio : Q) :
  v <> basic ->
  (0 < aspectRatio)%Q ->
  (0 < maxWidth v pageWidth)%Q ->
  (0 < drawableHeight v pageHeight)%Q ->
  let p := layout v pageWidth pageHeight aspectRatio in
  (0 < imgWidth p /\ imgWidth p <= maxWidth v pageWidth
   /\ 0 < imgHeight p /\ imgHeight p <= drawableHeight v pageHeight
   /\ margin v <= img_x p /\ img_x p + imgWidth p <= pageWidth - margin v
   /\ margin v <= img_y p /\ img_y p + imgHeight p <= pageHeight - margin v)%Q.
Proof.
  intros Hv Har Hmw Hdh p.
  destruct (fit_bounds v pageWidth pageHeight aspectRatio Hv Har Hmw Hdh)
    as (Hw0 & Hw & Hh0 & Hh).
  destruct (layout_branches v pageWidth pageHeight aspectRatio) as (_ & Hx).
  pose proof (layout_y v pageWidth pageHeight aspectRatio) as Hy.
  fold p in Hw0, Hw, Hh0, Hh, Hx, Hy. rewrite Hx, Hy.
  set (w := imgWidth p) in *. set (h := imgHeight p) in *. clearbody w h. clear Hx Hy p.
  destruct v; [congruence | |]; simpl in *;
    unfold Guides.maxWidth, Guides.availableHeight, Guides.maxHeight, Guides.margin,
      Centered.maxWidth, Centered.maxHeight, Centered.margin in *;
    rewrite ?Qhalf; repeat split; lra.
Qed.

Lemma image_within_margins_witness :
  let p := layout guides 210 297 2 in
  (15 <= img_x p /\ img_x p + imgWidth p <= 210 - 15
   /\ img_y p + imgHeight p <= 297 - 15)%Q.
Proof.
  assert (Hv : guides <> basic) by discriminate.
  assert (Ha : (0 < 2)%Q) by reflexivity.
  assert (Hw : (0 < maxWidth guides 210)%Q) by reflexivity.
  assert (Hh : (0 < drawableHeight guides 297)%Q) by reflexivity.
  destruct (image_within_margins guides 210 297 2 Hv Ha Hw Hh)
    as (_ & _ & _ & _ & H1 & H2 & _ & H3).
  split; [exact H1 | split; [exact H2 | exact H3]].
Defined.

(** X7. In the first revision the image can run off the page.  It is never
    wider than [maxWidth] and is lower than [maxHeight], and it stays between
    the left and right margins; but its top is 20 mm below the top margin in
    both branches, so its bottom edge is beyond the bottom of the page
    exactly when the width-constrained branch is taken with an image higher
    than [maxHeight - 10], that is when
    [maxWidth / maxHeight < aspectRatio < maxWidth / (maxHeight - 10)]. *)
Theorem basic_image_bottom (pageWidth pageHeight aspectRatio : Q) :
  (0 < aspectRatio)%Q ->
  (0 < Basic.maxWidth pageWidth)%Q ->
  (0 < Basic.maxHeight pageHeight - 20)%Q ->
  let p := Basic.layout pageWidth pageHeight aspectRatio in
  let mw := Basic.maxWidth pageWidth in
  let mh := Basic.maxHeight pageHeight in
  (imgWidth p <= mw /\ imgHeight p < mh
   /\ Basic.margin <= img_x p /\ img_x p + imgWidth p <= pageWidth - Basic.margin
   /\ (pageHeight < img_y p + imgHeight p
       <-> mw < aspectRatio * mh /\ aspectRatio * (mh - 10) < mw))%Q.
Proof.
  intros Har Hmw Hdh p mw mh.
  destruct (basic_fit pageWidth pageHeight aspectRatio Har Hmw Hdh)
    as (Hw0 & Hw & Hh0 & Hh & Htrue & Hfalse).
  destruct (layout_branches basic pageWidth pageHeight aspectRatio) as (_ & Hx).
  pose proof (layout_y basic pageWidth pageHeight aspectRatio) as Hy.
  simpl in Hx, Hy. fold p in Hw0, Hw, Hh0, Hh, Htrue, Hfalse, Hx, Hy.
  fold mw mh in Hw, Hh, Htrue, Hfalse, Hmw, Hdh.
  assert (Hmh : (mh == pageHeight - 20)%Q).
  { unfold mh, Basic.maxHeight, Basic.margin. ring. }
  assert (Hmw' : (mw == pageWidth - 20)%Q).
  { unfold mw, Basic.maxWidth, Basic.margin. ring. }
  rewrite Hx, Hy, ?Qhalf. unfold Basic.margin.
  set (w := imgWidth p) in *. set (h := imgHeight p) in *. clearbody w h. clear Hx Hy p.
  split; [exact Hw|]. split; [exact Hh|]. split; [lra|]. split; [lra|].
  destruct (Qgtb aspectRatio (mw / mh)) eqn:E.
  - destruct (Htrue eq_refl) as [Hprod Hlt]. split.
    + intros Hover. split; [exact Hlt|]. nra.
    + intros [_ Hbelow]. nra.
  - destruct (Hfalse eq_refl) as [Hfit Hle]. split.
    + intros Hover. lra.
    + intros [Hlt _]. lra.
Qed.

Lemma basic_image_bottom_witness :
  let p := Basic.layout 210 297 (7 # 10) in
  (297 < img_y p + imgHeight p)%Q.
Proof.
  assert (Ha : (0 < 7 # 10)%Q) by reflexivity.
  assert (Hw : (0 < Basic.maxWidth 210)%Q) by reflexivity.
  assert (Hh : (0 < Basic.maxHeight 297 - 20)%Q) by reflexivity.
  destruct (basic_image_bottom 210 297 (7 # 10) Ha Hw Hh) as (_ & _ & _ & _ & Hiff).
  apply Hiff. split; reflexivity.
Defined.

(** ** Guide marks *)

(** The guide marks around an image that lies between the margins of the
    header-and-guides revision stay on the page. *)
Lemma guideLines_onPage (pw ph : Q) (p : Placement) :
  (0 < imgWidth p -> 0 < imgHeight p ->
   15 <= img_x p -> img_x p + imgWidth p <= pw - 15 ->
   img_y p == 30 -> img_y p + imgHeight p <= ph - 25 ->
   Forall (onPage pw ph) (Guides.guideLines pw ph p))%Q.
Proof.
  intros Hw Hh Hx Hxw Hy Hyh. unfold Guides.guideLines. cbv zeta.
  set (x := img_x p) in *. set (y := img_y p) in *.
  set (w := imgWidth p) in *. set (h := imgHeight p) in *. clearbody x y w h.
  repeat (apply Forall_cons; [simpl; rewrite ?Qhalf; repeat split; lra|]).
  apply Forall_nil.
Qed.

Lemma pageOps_onPage v st img pw ph i :
  v <> basic ->
  (0 < aspectRatioOf img (gridConfig st))%Q ->
  (0 < maxWidth v pw)%Q -> (0 < drawableHeight v ph)%Q ->
  Forall (onPage pw ph) (pageOps v st img pw ph i).
Proof.
  intros Hv Har Hmw Hdh.
  destruct (fit_bounds v pw ph _ Hv Har Hmw Hdh) as (Hw0 & Hw & Hh0 & Hh).
  destruct (layout_branches v pw ph (aspectRatioOf img (gridConfig st))) as (_ & Hx).
  pose proof (layout_y v pw ph (aspectRatioOf img (gridConfig st))) as Hy.
  destruct v; [congruence | |];
    cbn [layout maxWidth drawableHeight pageOps] in *.
  - unfold Guides_pageOps. cbv zeta.
    set (p := Guides.layout pw ph (aspectRatioOf img (gridConfig st))) in *.
    unfold Guides.margin, Guides.availableHeight, Guides.maxHeight, Guides.maxWidth,
      Guides.margin in *.
    clearbody p.
    assert (Hx1 : (15 <= img_x p)%Q) by (rewrite Hx, Qhalf; lra).
    assert (Hx2 : (img_x p + imgWidth p <= pw - 15)%Q) by (rewrite Hx, Qhalf; lra).
    assert (Hy1 : (img_y p == 30)%Q) by (rewrite Hy; reflexivity).
    assert (Hy2 : (img_y p + imgHeight p <= ph - 25)%Q) by (rewrite Hy1; lra).
    assert (Himg : onPage pw ph (addImage (pieceAt (previewData st) i)
                                          (img_x p) (img_y p) (imgWidth p) (imgHeight p))).
    { cbn [onPage]. repeat split; lra. }
    apply Forall_app. split; [repeat (apply Forall_cons; [exact I|]); apply Forall_nil|].
    apply Forall_app. split; [apply Forall_cons; [exact Himg | apply Forall_nil]|].
    apply Forall_app. split.
    + destruct (showGuideLines st); [|apply Forall_nil].
      now apply guideLines_onPage.
    + repeat (apply Forall_cons; [exact I|]). apply Forall_nil.
  - unfold Centered_pageOps. cbv zeta.
    set (p := Centered.layout pw ph (aspectRatioOf img (gridConfig st))) in *.
    unfold Centered.maxHeight, Centered.maxWidth, Centered.margin in *.
    clearbody p.
    assert (Himg : onPage pw ph (addImage (pieceAt (previewData st) i)
                                          (img_x p) (img_y p) (imgWidth p) (imgHeight p))).
    { cbn [onPage]. rewrite Hx, Hy, !Qhalf. repeat split; lra. }
    apply Forall_cons; [exact Himg|].
    repeat (apply Forall_cons; [exact I|]). apply Forall_nil.
Qed.

(** X8. In the two revisions of part_000, with a preview whose tiles all
    have pixels and a positive aspect ratio, everything drawn stays on the
    page: on every page of the saved document the image, the border
    rectangle, the eight corner marks and the two centre lines have all
    their corners and ends within the page, for every paper format and
    orientation. *)
Theorem drawing_stays_on_page v st img :
  v <> basic ->
  imageData st = Some img -> previewData st <> [] ->
  forallb hasPixels (previewData st) = true ->
  (0 < aspectRatioOf img (gridConfig st))%Q ->
  exists doc name t,
    generatePDF v st = Saved doc name t
    /\ forall ops, In ops (pages doc) ->
         Forall (onPage (pageWidth doc) (pageHeight doc)) ops.
Proof.
  intros Hv Hi Hne Hpx Har.
  destruct (generatePDF_pages v st img Hi Hne Hpx) as (doc & Hdoc & Hw & Hh & Hpages).
  destruct (newDocument_positive v st) as (_ & _ & Hmw & _ & Hdh).
  rewrite <- Hw in Hmw. rewrite <- Hh in Hdh.
  exists doc, (filename v st), (toast_success "PDF gerado e baixado!").
  split; [exact Hdoc|].
  intros ops Hin. rewrite Hpages in Hin. apply in_map_iff in Hin.
  destruct Hin as (k & <- & _). now apply pageOps_onPage.
Qed.

Lemma drawing_stays_on_page_witness :
  exists doc name t,
    generatePDF guides st_2x2_preview = Saved doc name t
    /\ forall ops, In ops (pages doc) -> Forall (onPage 210 297) ops.
Proof.
  assert (Hv : guides <> basic) by discriminate.
  assert (Hne : previewData st_2x2_preview <> []) by (simpl; discriminate).
  assert (Hpx : forallb hasPixels (previewData st_2x2_preview) = true) by reflexivity.
  assert (Har : (0 < aspectRatioOf (mkImage "blob:1" 1000 500)
                                   (gridConfig st_2x2_preview))%Q) by reflexivity.
  destruct (drawing_stays_on_page guides st_2x2_preview (mkImage "blob:1" 1000 500)
              Hv eq_refl Hne Hpx Har) as (doc & name & t & Hdoc & Hon).
  exists doc, name, t. split; [exact Hdoc|].
  assert (Hdims : pageWidth doc = 210%Q /\ pageHeight doc = 297%Q).
  { simpl in Hdoc. unfold Guides.generatePDF in Hdoc. simpl in Hdoc.
    injection Hdoc as <- _. split; reflexivity. }
  destruct Hdims as [Hw Hh]. rewrite Hw, Hh in Hon. exact Hon.
Defined.

(** X9. The guide switch adds the marks and nothing else: with a preview
    whose tiles all have pixels, the document saved without guide lines is
    the one saved with them, less the drawing calls of the marks, under the
    same file name; with the switch on every page has one border rectangle
    and ten lines, with it off none. *)
Theorem guide_switch st img :
  imageData st = Some img -> previewData st <> [] ->
  forallb hasPixels (previewData st) = true ->
  exists docOn docOff name t,
    generatePDF guides (setShowGuideLines true st) = Saved docOn name t
    /\ generatePDF guides (setShowGuideLines false st) = Saved docOff name t
    /\ pages docOff = map (filter (fun op => negb (isGuide op))) (pages docOn)
    /\ (forall ops, In ops (pages docOn) ->
          List.length (filter isRect ops) = 1%nat
          /\ List.length (filter isLine ops) = 10%nat)
    /\ (forall ops, In ops (pages docOff) -> filter isGuide ops = []).
Proof.
  intros Hi Hne Hpx.
  destruct (generatePDF_pages guides (setShowGuideLines true st) img Hi Hne Hpx)
    as (docOn & HdocOn & HwOn & HhOn & HpagesOn).
  destruct (generatePDF_pages guides (setShowGuideLines false st) img Hi Hne Hpx)
    as (docOff & HdocOff & HwOff & HhOff & HpagesOff).
  exists docOn, docOff, (filename guides st), (toast_success "PDF gerado e baixado!").
  split; [exact HdocOn|]. split; [exact HdocOff|].
  assert (Hw : pageWidth docOff = pageWidth docOn) by (rewrite HwOn, HwOff; reflexivity).
  assert (Hh : pageHeight docOff = pageHeight docOn) by (rewrite HhOn, HhOff; reflexivity).
  split; [|split].
  - rewrite HpagesOn, HpagesOff, map_map, Hw, Hh. apply map_ext. intros k.
    reflexivity.
  - intros ops Hin. rewrite HpagesOn in Hin. apply in_map_iff in Hin.
    destruct Hin as (k & <- & _). split; reflexivity.
  - intros ops Hin. rewrite HpagesOff in Hin. apply in_map_iff in Hin.
    destruct Hin as (k & <- & _). reflexivity.
Qed.

Lemma guide_switch_witness :
  exists docOn docOff name t,
    generatePDF guides (setShowGuideLines true st_2x2_preview) = Saved docOn name t
    /\ generatePDF guides (setShowGuideLines false st_2x2_preview) = Saved docOff name t
    /\ pages docOff = map (filter (fun op => negb (isGuide op))) (pages docOn).
Proof.
  assert (Hne : previewData st_2x2_preview <> []) by (simpl; discriminate).
  assert (Hpx : forallb hasPixels (previewData st_2x2_preview) = true) by reflexivity.
  destruct (guide_switch st_2x2_preview (mkImage "blob:1" 1000 500) eq_refl Hne Hpx)
    as (docOn & docOff & name & t & Hon & Hoff & Hpages & _).
  exists docOn, docOff, name, t. split; [exact Hon|]. split; [exact Hoff | exact Hpages].
Defined.

(** ** Page size, page count and a new upload *)

(** X10. Every entry of [PAPER_FORMATS] is higher than wide, so in the two
    revisions that pass the format and the orientation to the document the
    page of a saved document (one made from a preview whose tiles all have
    pixels) is the catalogued width by height in portrait and the catalogued
    height by width in landscape, and it is strictly higher than wide
    exactly in portrait. *)
Theorem page_size_by_orientation v st img :
  v <> basic -> imageData st = Some img -> previewData st <> [] ->
  forallb hasPixels (previewData st) = true ->
  exists doc name t,
    generatePDF v st = Saved doc name t
    /\ (pageWidth doc, pageHeight doc)
       = match orientation st with
         | portrait => (pf_width (PAPER_FORMATS (paperFormat st)),
                        pf_height (PAPER_FORMATS (paperFormat st)))
         | landscape => (pf_height (PAPER_FORMATS (paperFormat st)),
                         pf_width (PAPER_FORMATS (paperFormat st)))
         end
    /\ ((pageWidth doc < pageHeight doc)%Q <-> orientation st = portrait).
Proof.
  intros Hv Hi Hne Hpx.
  destruct (generatePDF_pages v st img Hi Hne Hpx) as (doc & Hdoc & Hw & Hh & _).
  exists doc, (filename v st), (toast_success "PDF gerado e baixado!").
  split; [exact Hdoc|]. rewrite Hw, Hh.
  destruct v; [congruence | |]; simpl;
    destruct (paperFormat st), (orientation st); simpl;
    (split; [reflexivity|]); split; try reflexivity; try discriminate.
Qed.

Lemma page_size_by_orientation_witness :
  exists doc name t,
    generatePDF centered (setOrientation landscape st_2x2_preview) = Saved doc name t
    /\ (pageWidth doc, pageHeight doc) = (297%Q, 210%Q).
Proof.
  assert (Hv : centered <> basic) by discriminate.
  assert (Hne : previewData (setOrientation landscape st_2x2_preview) <> [])
    by (simpl; discriminate).
  assert (Hpx : forallb hasPixels (previewData (setOrientation landscape st_2x2_preview))
                = true) by reflexivity.
  destruct (page_size_by_orientation centered (setOrientation landscape st_2x2_preview)
              (mkImage "blob:1" 1000 500) Hv eq_refl Hne Hpx)
    as (doc & name & t & Hdoc & Hsize & _).
  exists doc, name, t. split; [exact Hdoc | exact Hsize].
Defined.

Lemma pages_images v st img doc name t :
  imageData st = Some img -> generatePDF v st = Saved doc name t ->
  map imagesOn (pages doc) = map (fun p => [p]) (previewData st)
  /\ List.length (pages doc) = List.length (previewData st).
Proof.
  intros Hi Hsaved.
  destruct (Saved_preview v st doc name t Hsaved) as [Hne Hpx].
  destruct (generatePDF_pages v st img Hi Hne Hpx) as (doc' & Hdoc & _ & _ & Hpages).
  rewrite Hsaved in Hdoc. injection Hdoc as <- _.
  split.
  - rewrite Hpages, map_map.
    rewrite (map_ext _ (fun k => [nth k (previewData st) (mkPiece 0 0 None)])).
    + rewrite <- (map_map (fun k => nth k (previewData st) (mkPiece 0 0 None))
                          (fun p => [p])).
      now rewrite map_nth_seq.
    + intros k. rewrite imagesOn_pageOps. unfold pieceAt. now rewrite Nat2Z.id.
  - now rewrite Hpages, length_map, length_seq.
Qed.

(** X11. The number shown as the total of pages is the number of pages
    exported, when the export follows a preview made on a grid of at least
    one column and one row, on an image with at least one pixel per column
    and per row (and piece sizes within the range of a canvas size): the
    preview has [gridConfig.horizontal * gridConfig.vertical] tiles and the
    document of each revision as many pages. *)
Theorem total_pages_exported v st img cv :
  imageData st = Some img -> canvasRef st = Some cv -> context2d cv = true ->
  1 <= horizontal (gridConfig st) <= img_width img ->
  1 <= vertical (gridConfig st) <= img_height img ->
  img_width img / horizontal (gridConfig st) <= 2147483647 ->
  img_height img / vertical (gridConfig st) <= 2147483647 ->
  let st' := fst (generatePreview st) in
  totalPages st' = totalPages st
  /\ Z.of_nat (List.length (previewData st')) = totalPages st'
  /\ exists doc name t,
       generatePDF v st' = Saved doc name t
       /\ Z.of_nat (List.length (pages doc)) = totalPages st'.
Proof.
  intros Hi Hc Hctx Hcols Hrows HWmax HHmax st'.
  pose proof (tiles_have_pixels st img cv Hi Hc Hctx Hcols Hrows HWmax HHmax) as Hpx.
  fold st' in Hpx.
  destruct (generatePreview_runs st img cv Hi Hc Hctx) as (Hp & _ & Hg & Him).
  fold st' in Hp, Hg, Him.
  assert (Hlen : Z.of_nat (List.length (previewData st')) = totalPages st').
  { unfold totalPages. rewrite Hp, Hg. apply tilesOf_length; lia. }
  split; [unfold totalPages; now rewrite Hg|]. split; [exact Hlen|].
  assert (Hne : previewData st' <> []).
  { intros E. rewrite E in Hlen. unfold totalPages in Hlen. rewrite Hg in Hlen.
    simpl in Hlen. nia. }
  rewrite Hi in Him.
  destruct (generatePDF_pages v st' img Him Hne Hpx) as (doc & Hdoc & _).
  exists doc, (filename v st'), (toast_success "PDF gerado e baixado!").
  split; [exact Hdoc|].
  destruct (pages_images v st' img doc _ _ Him Hdoc) as [_ Hl]. now rewrite Hl.
Qed.

Lemma total_pages_exported_witness :
  totalPages (fst (generatePreview st_3x4)) = 12
  /\ exists doc name t,
       generatePDF basic (fst (generatePreview st_3x4)) = Saved doc name t
       /\ Z.of_nat (List.length (pages doc)) = 12.
Proof.
  destruct (total_pages_exported basic st_3x4 (mkImage "blob:1" 1200 1600) aCanvas
              eq_refl eq_refl eq_refl ltac:(simpl; lia) ltac:(simpl; lia)
              ltac:(vm_compute; discriminate) ltac:(vm_compute; discriminate))
    as (_ & _ & doc & name & t & Hdoc & Hlen).
  split; [reflexivity|]. exists doc, name, t. split; [exact Hdoc | exact Hlen].
Defined.

(** X12. Loading another image does not touch the preview: the [onload]
    callback replaces [imageData] and nothing else, so an export made right
    after it (on a preview whose tiles all have pixels) carries the tiles of
    the previous preview, one per page and in their order, each placed by
    the layout of the aspect ratio of the new image. *)
Theorem new_image_keeps_preview v file w h st :
  natural file = Some (w, h) -> previewData st <> [] ->
  forallb hasPixels (previewData st) = true ->
  let st' := fst (img_onload file st) in
  let img := mkImage (objectURL file) w h in
  imageData st' = Some img
  /\ previewData st' = previewData st /\ gridConfig st' = gridConfig st
  /\ exists doc name t,
       generatePDF v st' = Saved doc name t
       /\ map imagesOn (pages doc) = map (fun p => [p]) (previewData st)
       /\ let p := layout v (pageWidth doc) (pageHeight doc)
                     (aspectRatioOf img (gridConfig st)) in
          forall ops, In ops (pages doc) ->
            exists piece,
              In (addImage piece (img_x p) (img_y p) (imgWidth p) (imgHeight p)) ops.
Proof.
  intros Hnat Hne Hpx st' img.
  assert (Hst : st' = setImageData img st).
  { unfold st', img_onload. now rewrite Hnat. }
  assert (Hi : imageData st' = Some img) by now rewrite Hst.
  assert (Hp : previewData st' = previewData st) by now rewrite Hst.
  assert (Hg : gridConfig st' = gridConfig st) by now rewrite Hst.
  split; [exact Hi|]. split; [exact Hp|]. split; [exact Hg|].
  assert (Hne' : previewData st' <> []) by now rewrite Hp.
  assert (Hpx' : forallb hasPixels (previewData st') = true) by now rewrite Hp.
  destruct (generatePDF_pages v st' img Hi Hne' Hpx') as (doc & Hdoc & _).
  exists doc, (filename v st'), (toast_success "PDF gerado e baixado!").
  split; [exact Hdoc|]. split.
  - rewrite <- Hp. exact (proj1 (pages_images v st' img doc _ _ Hi Hdoc)).
  - rewrite <- Hg. exact (pages_carry_layout v st' img doc _ _ Hi Hdoc).
Qed.

Lemma new_image_keeps_preview_witness :
  let st' := fst (img_onload tall_file st_2x2_preview) in
  imageData st' = Some (mkImage "blob:tall" 300 900)
  /\ previewData st' = previewData st_2x2_preview.
Proof.
  assert (Hne : previewData st_2x2_preview <> []) by (simpl; discriminate).
  assert (Hpx : forallb hasPixels (previewData st_2x2_preview) = true) by reflexivity.
  destruct (new_image_keeps_preview guides tall_file 300 900 st_2x2_preview
              eq_refl Hne Hpx)
    as (Hi & Hp & _).
  split; [exact Hi | exact Hp].
Defined.

Lemma reachable_states_witness :
  let st := run (Some aCanvas)
                [FileChosen [png_file]; HorizontalTyped "0"; VerticalTyped "-3";
                 PreviewClicked] in
  gridConfig st = mkGrid 1 (-3)
  /\ horizontal (gridConfig st) <> 0 /\ vertical (gridConfig st) <> 0
  /\ generatePDF guides st <> TypeError.
Proof.
  pose proof (reachable_states (Some aCanvas)
                [FileChosen [png_file]; HorizontalTyped "0"; VerticalTyped "-3";
                 PreviewClicked]) as H.
  cbv zeta in H. destruct H as (Hh & Hv & _ & Hpdf).
  split; [reflexivity|]. split; [exact Hh|]. split; [exact Hv|].
  exact (proj1 (Hpdf guides)).
Defined.

(** ** File names *)

Lemma takeDigits_uint (d : Decimal.uint) (s : string) :
  startsWithDigit s = false ->
  takeDigits (NilEmpty.string_of_uint d ++ s) = (NilEmpty.string_of_uint d, s).
Proof.
  intros Hs. induction d; simpl;
    try (rewrite IHd; reflexivity).
  destruct s as [|c s]; [reflexivity|]. simpl in *. now rewrite Hs.
Qed.

Lemma splitNumber_numberToString (n : Z) (s : string) :
  startsWithDigit s = false ->
  splitNumber (numberToString n ++ s) = (numberToString n, s).
Proof.
  intros Hs. unfold numberToString.
  destruct n as [|p|p]; simpl Z.to_int; unfold NilZero.string_of_int, NilZero.string_of_uint.
  - change (splitNumber (String "0" s) = (String "0" EmptyString, s)).
    unfold splitNumber.
    change (String "0" s)
      with (NilEmpty.string_of_uint (Decimal.D0 Decimal.Nil) ++ s)%string.
    now rewrite takeDigits_uint.
  - pose proof (DecimalPos.Unsigned.to_uint_nonnil p) as Hnil.
    pose proof (takeDigits_uint (Pos.to_uint p) s Hs) as Htake.
    destruct (Pos.to_uint p); [congruence | exact Htake ..].
  - pose proof (DecimalPos.Unsigned.to_uint_nonnil p) as Hnil.
    pose proof (takeDigits_uint (Pos.to_uint p) s Hs) as Htake.
    destruct (Pos.to_uint p); [congruence | ..];
      unfold splitNumber; cbn [append]; rewrite Htake; reflexivity.
Qed.

Lemma numberToString_append_inj (a b : Z) (s t : string) :
  startsWithDigit s = false -> startsWithDigit t = false ->
  (numberToString a ++ s = numberToString b ++ t)%string -> a = b /\ s = t.
Proof.
  intros Hs Ht Heq.
  pose proof (splitNumber_numberToString a s Hs) as Ha.
  pose proof (splitNumber_numberToString b t Ht) as Hb.
  rewrite Heq, Hb in Ha. injection Ha as Hnum Hrest.
  split; [|now symmetry].
  assert (Hstop : stopsNumber "" = true) by reflexivity.
  pose proof (parseInt_number_aux a) as Pa. pose proof (parseInt_number_aux b) as Pb.
  rewrite Hnum in Pb. congruence.
Qed.

(** X13. The file name tells the settings apart: in the two revisions of
    part_000 two exports have the same file name only if they have the same
    grid, paper format and orientation, and in the first revision only if
    they have the same grid. *)
Theorem filename_determines_settings (st st' : State) :
  (Guides.filename st = Guides.filename st' ->
   gridConfig st = gridConfig st' /\ paperFormat st = paperFormat st'
   /\ orientation st = orientation st')
  /\ (Centered.filename st = Centered.filename st' ->
      gridConfig st = gridConfig st' /\ paperFormat st = paperFormat st'
      /\ orientation st = orientation st')
  /\ (Basic.filename st = Basic.filename st' -> gridConfig st = gridConfig st').
Proof.
  assert (Hlong : forall g g' f f' o o',
             expectedName g f o = expectedName g' f' o' -> g = g' /\ f = f' /\ o = o').
  { intros [h v] [h' v'] f f' o o' Heq. unfold expectedName in Heq. simpl in Heq.
    injection Heq as Heq.
    apply numberToString_append_inj in Heq; [|reflexivity ..].
    destruct Heq as [-> Heq]. injection Heq as Heq.
    apply numberToString_append_inj in Heq; [|reflexivity ..].
    destruct Heq as [-> Heq].
    split; [reflexivity|].
    destruct f, f', o, o'; try discriminate Heq; split; reflexivity. }
  split; [|split].
  - intros H. now apply Hlong.
  - intros H. now apply Hlong.
  - unfold Basic.filename. destruct (gridConfig st) as [h v], (gridConfig st') as [h' v'].
    simpl. intros Heq. injection Heq as Heq.
    apply numberToString_append_inj in Heq; [|reflexivity ..].
    destruct Heq as [-> Heq]. injection Heq as Heq.
    apply numberToString_append_inj in Heq; [|reflexivity ..].
    destruct Heq as [-> _]. reflexivity.
Qed.

Lemma filename_determines_settings_witness :
  Guides.filename st_loaded = Guides.filename (setShowGuideLines false st_loaded)
  /\ gridConfig st_loaded = gridConfig (setShowGuideLines false st_loaded).
Proof.
  split; [reflexivity|].
  exact (proj1 (proj1 (filename_determines_settings st_loaded
                         (setShowGuideLines false st_loaded)) eq_refl)).
Defined.

(** ** A grid with negative entries *)

(** X14. With two negative grid entries the total of pages shown is
    positive, yet the preview holds no tile and every revision refuses the
    export with the "generate the preview first" error. *)
Theorem negative_grid_total st img cv :
  imageData st = Some img -> canvasRef st = Some cv -> context2d cv = true ->
  horizontal (gridConfig st) < 0 -> vertical (gridConfig st) < 0 ->
  let st' := fst (generatePreview st) in
  0 < totalPages st'
  /\ previewData st' = []
  /\ forall v,
       generatePDF v st' = NoPreview (toast_error "Gere a pré-visualização primeiro!").
Proof.
  intros Hi Hc Hctx Hh Hv st'.
  destruct (generatePreview_runs st img cv Hi Hc Hctx) as (Hp & _ & Hg & _).
  fold st' in Hp, Hg.
  assert (Hempty : previewData st' = []).
  { rewrite Hp. apply tilesOf_empty. lia. }
  split; [unfold totalPages; rewrite Hg; nia|]. split; [exact Hempty|].
  intros v. destruct v; simpl;
    unfold Basic.generatePDF, Guides.generatePDF, Centered.generatePDF;
    now rewrite Hempty.
Qed.

Lemma negative_grid_total_witness :
  totalPages (fst (generatePreview st_negative_grid)) = 6
  /\ previewData (fst (generatePreview st_negative_grid)) = [].
Proof.
  assert (Hh : horizontal (gridConfig st_negative_grid) < 0) by reflexivity.
  assert (Hv : vertical (gridConfig st_negative_grid) < 0) by reflexivity.
  destruct (negative_grid_total st_negative_grid (mkImage "blob:1" 1000 500) aCanvas
              eq_refl eq_refl eq_refl Hh Hv) as (_ & Hempty & _).
  split; [reflexivity | exact Hempty].
Defined.

(** ** The fitted image against other placements *)

(** X15. In the two revisions of part_000 the layout places the largest
    image that fits: for a positive aspect ratio and a drawable area of
    positive size the placed image has the aspect ratio of the tile, is no
    wider than [maxWidth] and no higher than the drawable height, and every
    rectangle of that aspect ratio that is no wider than [maxWidth] and no
    higher than the drawable height is no wider and no higher than it. *)
Theorem layout_is_largest_fit v (pageWidth pageHeight aspectRatio : Q) :
  v <> basic ->
  (0 < aspectRatio)%Q ->
  (0 < maxWidth v pageWidth)%Q -> (0 < drawableHeight v pageHeight)%Q ->
  let p := layout v pageWidth pageHeight aspectRatio in
  (imgWidth p == imgHeight p * aspectRatio
   /\ 0 < imgHeight p
   /\ imgWidth p <= maxWidth v pageWidth
   /\ imgHeight p <= drawableHeight v pageHeight
   /\ forall w h,
        0 < h -> w == h * aspectRatio ->
        w <= maxWidth v pageWidth -> h <= drawableHeight v pageHeight ->
        w <= imgWidth p /\ h <= imgHeight p)%Q.
Proof.
  intros Hv Har Hmw Hdh p.
  destruct (fit_bounds v pageWidth pageHeight aspectRatio Hv Har Hmw Hdh)
    as (_ & Hfw & Hh0 & Hfh).
  fold p in Hfw, Hh0, Hfh.
  destruct (layout_branches v pageWidth pageHeight aspectRatio) as (Hb & _).
  fold p in Hb.
  set (mw := maxWidth v pageWidth) in *. set (dh := drawableHeight v pageHeight) in *.
  pose proof (Qdiv_mult_pos mw aspectRatio Har) as Hu.
  split; [|split; [exact Hh0 | split; [exact Hfw | split; [exact Hfh|]]]].
  - destruct (Qgtb aspectRatio (mw / testHeight v pageHeight));
      injection Hb as Hbw Hbh; rewrite Hbw, Hbh; [now rewrite Hu | reflexivity].
  - intros w h Hh Hratio Hw Hhd.
    destruct (Qgtb aspectRatio (mw / testHeight v pageHeight));
      injection Hb as Hbw Hbh; rewrite Hbw, Hbh.
    + split; [exact Hw|]. nra.
    + split; [nra | exact Hhd].
Qed.

Lemma layout_is_largest_fit_witness :
  let p := layout centered 210 297 2 in
  (imgWidth p <= maxWidth centered 210)%Q
  /\ (100 <= imgWidth p)%Q /\ (50 <= imgHeight p)%Q.
Proof.
  assert (Hv : centered <> basic) by discriminate.
  assert (Ha : (0 < 2)%Q) by reflexivity.
  assert (Hmw : (0 < maxWidth centered 210)%Q) by reflexivity.
  assert (Hdh : (0 < drawableHeight centered 297)%Q) by reflexivity.
  assert (Hh : (0 < 50)%Q) by reflexivity.
  assert (Hr : (100 == 50 * 2)%Q) by reflexivity.
  assert (Hw : (100 <= maxWidth centered 210)%Q) by (unfold Qle; simpl; lia).
  assert (Hd : (50 <= drawableHeight centered 297)%Q) by (unfold Qle; simpl; lia).
  destruct (layout_is_largest_fit centered 210 297 2 Hv Ha Hmw Hdh)
    as (_ & _ & Hfit & _ & Hmax).
  cbv zeta. split; [exact Hfit|]. exact (Hmax 100%Q 50%Q Hh Hr Hw Hd).
Defined.

(** X16. The horizontal alignment line of the guides is drawn at half the
    page height, while the image hangs from 30 mm below the top: the line
    passes below the image, missing it, exactly when
    [maxWidth < aspectRatio * (pageHeight / 2 - 30)], that is for tiles wide
    enough. *)
Theorem centre_line_below_image (pageWidth pageHeight aspectRatio : Q) :
  (0 < aspectRatio)%Q ->
  (0 < Guides.maxWidth pageWidth)%Q ->
  (0 < Guides.availableHeight pageHeight)%Q ->
  let p := Guides.layout pageWidth pageHeight aspectRatio in
  In (line (img_x p - 5) (pageHeight / 2) (img_x p + imgWidth p + 5) (pageHeight / 2))
     (Guides.guideLines pageWidth pageHeight p)
  /\ ((img_y p + imgHeight p < pageHeight / 2)%Q
      <-> (Guides.maxWidth pageWidth < aspectRatio * (pageHeight / 2 - 30))%Q).
Proof.
  intros Har Hmw Hdh p.
  split.
  { unfold Guides.guideLines. cbv zeta. do 15 right. left. reflexivity. }
  destruct (layout_branches guides pageWidth pageHeight aspectRatio) as (Hb & _).
  pose proof (layout_y guides pageWidth pageHeight aspectRatio) as Hy.
  cbn [layout maxWidth testHeight drawableHeight] in Hb, Hy. fold p in Hb, Hy.
  rewrite Hy. unfold Guides.margin.
  set (mw := Guides.maxWidth pageWidth) in *.
  assert (Hdh' : (Guides.availableHeight pageHeight == pageHeight - 55)%Q).
  { unfold Guides.availableHeight, Guides.maxHeight, Guides.margin. ring. }
  set (dh := Guides.availableHeight pageHeight) in *.
  pose proof (Qdiv_mult_pos mw dh Hdh) as Ht.
  pose proof (Qdiv_mult_pos mw aspectRatio Har) as Hu.
  rewrite !Qhalf.
  destruct (Qgtb aspectRatio (mw / dh)) eqn:E; injection Hb as Hbw Hbh; rewrite Hbh.
  - apply Qgtb_true in E. split; intros H; nra.
  - apply Qgtb_false in E.
    assert (Hle : (aspectRatio * dh <= mw)%Q) by nra.
    split; intros H; [lra | nra].
Qed.

Lemma centre_line_below_image_witness :
  let p := Guides.layout 210 297 2 in
  (img_y p + imgHeight p < 297 / 2)%Q.
Proof.
  assert (Ha : (0 < 2)%Q) by reflexivity.
  assert (Hw : (0 < Guides.maxWidth 210)%Q) by reflexivity.
  assert (Hh : (0 < Guides.availableHeight 297)%Q) by reflexivity.
  destruct (centre_line_below_image 210 297 2 Ha Hw Hh) as [_ Hiff].
  apply Hiff. reflexivity.
Defined.
